(** * AddressBook.py: validated fields, records and the address book

    A shallow embedding of [src/AddressBook.py].  Python objects become
    Rocq records, methods become functions on them, raised exceptions
    become the [Raise] branch of [result], and methods that mutate
    [self] return the new state next to their outcome.

    Conventions of the embedding:
    - a Python [str] is a [string] whose characters are the code points
      U+0000..U+00FF (one [ascii] per code point); the character
      classes ([\d], [isdigit], [lower]) are those of Python on that
      range; [search], whose outcome depends on letters beyond that
      range, is modelled a second time, in [Unicode], on strings of
      arbitrary code points;
    - [date.today()] is read from the environment, so every function
      that calls it takes [today] as an argument;
    - a [dict] is an association list in insertion order with unique
      keys. *)

From Stdlib Require Import String Ascii List ZArith NArith Bool Lia.
Import ListNotations.

Local Open Scope list_scope.
Local Open Scope string_scope.
Local Open Scope Z_scope.

(** ** Exceptions and the error monad *)

Inductive exn : Type :=
| ValueError
| KeyError
| TypeError
| OverflowError
| RecursionError
| AttributeError (attr : string).

Inductive result (A : Type) : Type :=
| Ok (a : A)
| Raise (e : exn).

Arguments Ok {A} a.
Arguments Raise {A} e.

Definition bind {A B : Type} (m : result A) (k : A -> result B) : result B :=
  match m with
  | Ok a => k a
  | Raise e => Raise e
  end.

Notation "x <- m ;; k" := (bind m (fun x => k))
  (at level 61, m at next level, right associativity).

Definition exn_is_ValueError (e : exn) : bool :=
  match e with ValueError => true | _ => false end.

(** [try: body except ValueError: handler] *)
Definition try_except_ValueError {A : Type} (body handler : result A) : result A :=
  match body with
  | Ok a => Ok a
  | Raise e => if exn_is_ValueError e then handler else Raise e
  end.

Definition raises {A : Type} (m : result A) : Prop := exists e, m = Raise e.

(** ** Python strings *)

Definition code (c : ascii) : N := N_of_ascii c.

Definition in_range (lo hi : N) (c : ascii) : bool :=
  (N.leb lo (code c) && N.leb (code c) hi)%bool.

(** The class [\d] of a [str] pattern: Unicode category Nd, which below
    U+0100 is ['0'..'9']. *)
Definition is_decimal (c : ascii) : bool := in_range 48 57 c.

(** [str.isdigit] per character: the decimal digits and the superscript
    digits U+00B2, U+00B3, U+00B9. *)
Definition char_isdigit (c : ascii) : bool :=
  (is_decimal c || N.eqb (code c) 178 || N.eqb (code c) 179 || N.eqb (code c) 185)%bool.

(** [str.lower] per character: ['A'..'Z'] and U+00C0..U+00DE except the
    multiplication sign U+00D7 move up by 32. *)
Definition char_lower (c : ascii) : ascii :=
  if (in_range 65 90 c || (in_range 192 222 c && negb (N.eqb (code c) 215)))%bool
  then ascii_of_N (code c + 32)
  else c.

Fixpoint str_all (p : ascii -> bool) (s : string) : bool :=
  match s with
  | EmptyString => true
  | String c s' => (p c && str_all p s')%bool
  end.

Fixpoint str_map (f : ascii -> ascii) (s : string) : string :=
  match s with
  | EmptyString => EmptyString
  | String c s' => String (f c) (str_map f s')
  end.

Fixpoint str_filter (p : ascii -> bool) (s : string) : string :=
  match s with
  | EmptyString => EmptyString
  | String c s' => if p c then String c (str_filter p s') else str_filter p s'
  end.

Definition str_is_empty (s : string) : bool :=
  match s with EmptyString => true | _ => false end.

(** [s.isdigit()]: false on the empty string. *)
Definition isdigit (s : string) : bool :=
  (negb (str_is_empty s) && str_all char_isdigit s)%bool.

(** [s.lower()] below U+0100, where it maps character by character;
    [Unicode.lower] is the method on arbitrary code points. *)
Definition lower (s : string) : string := str_map char_lower s.

Fixpoint starts_with (p s : string) : bool :=
  match p, s with
  | EmptyString, _ => true
  | String a p', String b s' => (Ascii.eqb a b && starts_with p' s')%bool
  | String _ _, EmptyString => false
  end.

(** [needle in hay] on strings. *)
Fixpoint contains (needle hay : string) : bool :=
  (starts_with needle hay ||
   match hay with
   | EmptyString => false
   | String _ hay' => contains needle hay'
   end)%bool.

(** [sep.join(parts)] *)
Fixpoint join (sep : string) (parts : list string) : string :=
  match parts with
  | [] => ""
  | [p] => p
  | p :: rest => p ++ sep ++ join sep rest
  end.

Fixpoint str_drop (n : nat) (s : string) : string :=
  match n, s with
  | O, _ => s
  | S n', String _ s' => str_drop n' s'
  | S _, EmptyString => EmptyString
  end.

(** [s[-n:]] for [n > 0]: the last [n] characters, or all of [s] when it
    is shorter. *)
Definition last_chars (n : nat) (s : string) : string :=
  str_drop (String.length s - n) s.

Definition digit_val (c : ascii) : Z := Z.of_N (code c) - 48.

Fixpoint digits_val (acc : Z) (s : string) : Z :=
  match s with
  | EmptyString => acc
  | String c s' => digits_val (10 * acc + digit_val c) s'
  end.

(** The interpreter's default limit on the number of digits [int]
    converts ([sys.get_int_max_str_digits()]). *)
Definition int_max_str_digits : Z := 4300.

(** [int(s)] as [groups_days_to_bd] calls it, on a string that passed
    [isdigit]: the value of a run of decimal digits, [ValueError] when a
    character is not a decimal digit (the superscripts) and when the
    run, leading zeros included, is longer than [int_max_str_digits]. *)
Definition int_of_str (s : string) : result Z :=
  if (negb (str_is_empty s) && str_all is_decimal s)%bool
  then (if int_max_str_digits <? Z.of_nat (String.length s)
        then Raise ValueError
        else Ok (digits_val 0 s))
  else Raise ValueError.

Definition digit_char (d : Z) : ascii := ascii_of_N (Z.to_N (48 + d mod 10)).

(** [n] as [width] zero-padded decimal digits, for [0 <= n < 10^width]. *)
Fixpoint zero_pad (width : nat) (n : Z) : string :=
  match width with
  | O => ""
  | S w => zero_pad w (n / 10) ++ String (digit_char n) ""
  end.

(** ** Regular expressions: the fragment the patterns use *)

Inductive regex : Type :=
| Lit (c : ascii)
| Class (p : ascii -> bool)
| Seq (a b : regex)
| Alt (a b : regex)
| Rep (n : nat) (r : regex).

(** Backtracking matcher with a continuation for the rest of the input. *)
Fixpoint match_k (r : regex) (s : string) (k : string -> bool) : bool :=
  match r with
  | Lit c =>
      match s with
      | String c' s' => (Ascii.eqb c c' && k s')%bool
      | EmptyString => false
      end
  | Class p =>
      match s with
      | String c' s' => (p c' && k s')%bool
      | EmptyString => false
      end
  | Seq a b => match_k a s (fun s' => match_k b s' k)
  | Alt a b => (match_k a s k || match_k b s k)%bool
  | Rep n r' =>
      (fix rep (n : nat) (s : string) {struct n} : bool :=
         match n with
         | O => k s
         | S n' => match_k r' s (fun s' => rep n' s')
         end) n s
  end.

(** [re.fullmatch(r, s) is not None] *)
Definition fullmatch (r : regex) (s : string) : bool := match_k r s str_is_empty.

Fixpoint lit_str (s : string) (tail : regex) : regex :=
  match s with
  | EmptyString => tail
  | String c s' => Seq (Lit c) (lit_str s' tail)
  end.

(** ** [datetime.date] *)

Record date : Type := mkDate { year : Z; month : Z; day : Z }.

Definition MINYEAR : Z := 1.
Definition MAXYEAR : Z := 9999.
Definition MAXORDINAL : Z := 3652059.

Definition is_leap (y : Z) : bool :=
  ((y mod 4 =? 0) && (negb (y mod 100 =? 0) || (y mod 400 =? 0)))%bool.

Definition days_in_month (y m : Z) : Z :=
  if m =? 2 then (if is_leap y then 29 else 28)
  else if (m =? 4) || (m =? 6) || (m =? 9) || (m =? 11) then 30
  else 31.

Definition days_before_year (y : Z) : Z :=
  let p := y - 1 in p * 365 + p / 4 - p / 100 + p / 400.

Definition DAYS_BEFORE_MONTH (m : Z) : Z :=
  nth (Z.to_nat m) [-1; 0; 31; 59; 90; 120; 151; 181; 212; 243; 273; 304; 334] 0.

Definition days_before_month (y m : Z) : Z :=
  DAYS_BEFORE_MONTH m + (if (2 <? m) && is_leap y then 1 else 0).

Definition ymd2ord (y m d : Z) : Z :=
  days_before_year y + days_before_month y m + d.

(** [date(y, m, d)]: [ValueError] outside the calendar. *)
Definition date_new (y m d : Z) : result date :=
  if negb ((MINYEAR <=? y) && (y <=? MAXYEAR)) then Raise ValueError
  else if negb ((1 <=? m) && (m <=? 12)) then Raise ValueError
  else if negb ((1 <=? d) && (d <=? days_in_month y m)) then Raise ValueError
  else Ok (mkDate y m d).

Definition toordinal (d : date) : Z := ymd2ord (year d) (month d) (day d).

(** [d.replace(year=y)] *)
Definition replace_year (d : date) (y : Z) : result date :=
  date_new y (month d) (day d).

(** [d.replace(month=m, day=dd)] *)
Definition replace_month_day (d : date) (m dd : Z) : result date :=
  date_new (year d) m dd.

(** Comparison of dates is that of the triples (year, month, day). *)
Definition date_ltb (a b : date) : bool :=
  (year a <? year b) ||
  ((year a =? year b) &&
   ((month a <? month b) || ((month a =? month b) && (day a <? day b)))).

Definition date_eqb (a b : date) : bool :=
  (year a =? year b) && (month a =? month b) && (day a =? day b).

Definition date_leb (a b : date) : bool := date_ltb a b || date_eqb a b.

(** [(a - b).days] *)
Definition date_sub_days (a b : date) : Z := toordinal a - toordinal b.

Definition DI400Y : Z := 146097.
Definition DI100Y : Z := 36524.
Definition DI4Y : Z := 1461.

(** [_ord2ymd] of the standard library. *)
Definition ord2ymd (n : Z) : date :=
  let n := n - 1 in
  let n400 := n / DI400Y in
  let n := n mod DI400Y in
  let y := n400 * 400 + 1 in
  let n100 := n / DI100Y in
  let n := n mod DI100Y in
  let n4 := n / DI4Y in
  let n := n mod DI4Y in
  let n1 := n / 365 in
  let n := n mod 365 in
  let y := y + n100 * 100 + n4 * 4 + n1 in
  if (n1 =? 4) || (n100 =? 4) then mkDate (y - 1) 12 31
  else
    let leapyear := (n1 =? 3) && (negb (n4 =? 24) || (n100 =? 3)) in
    let m := Z.shiftr (n + 50) 5 in
    let preceding := DAYS_BEFORE_MONTH m + (if (2 <? m) && leapyear then 1 else 0) in
    if n <? preceding then
      let m' := m - 1 in
      let dim := nth (Z.to_nat m') [-1; 31; 28; 31; 30; 31; 30; 31; 31; 30; 31; 30; 31] 0 in
      let preceding' := preceding - (dim + (if (m' =? 2) && leapyear then 1 else 0)) in
      mkDate y m' (n - preceding' + 1)
    else mkDate y m (n - preceding + 1).

(** [timedelta(days=n)]: magnitudes above 999999999 days overflow. *)
Definition timedelta_days (n : Z) : result Z :=
  if (Z.abs n <=? 999999999) then Ok n else Raise OverflowError.

(** [d + timedelta(days=n)] *)
Definition date_add (d : date) (n : Z) : result date :=
  let o := toordinal d + n in
  if (0 <? o) && (o <=? MAXORDINAL) then Ok (ord2ymd o) else Raise OverflowError.

(** [d.isoformat()] *)
Definition isoformat (d : date) : string :=
  zero_pad 4 (year d) ++ "-" ++ zero_pad 2 (month d) ++ "-" ++ zero_pad 2 (day d).

(** [date.fromisoformat(s)] on the form [YYYY-MM-DD], the one every
    version of the library reads: ten characters, decimal digits around
    two hyphens, then the calendar check of [date(y, m, d)].  The other
    ISO 8601 spellings that later versions also read are taken as
    malformed here, like everything else. *)
Definition fromisoformat (s : string) : result date :=
  let ys := String.substring 0 4 s in
  let ms := String.substring 5 2 s in
  let ds := String.substring 8 2 s in
  if ((String.length s =? 10)%nat
      && str_all is_decimal ys && str_all is_decimal ms && str_all is_decimal ds
      && String.eqb (String.substring 4 1 s) "-"
      && String.eqb (String.substring 7 1 s) "-")%bool
  then date_new (digits_val 0 ys) (digits_val 0 ms) (digits_val 0 ds)
  else Raise ValueError.

(** ** Classes: name mangling, abstract methods, attribute lookup *)

Definition ends_with (p s : string) : bool :=
  (Nat.leb (String.length p) (String.length s)
   && String.eqb (last_chars (String.length p) s) p)%bool.

(** A name written [__x] in the body of class [cls] is bound as
    [_cls__x]; names that also end in two underscores are kept. *)
Definition mangle (cls attr : string) : string :=
  if (starts_with "__" attr && negb (ends_with "__" attr))%bool
  then "_" ++ cls ++ attr
  else attr.

Definition mem_str (x : string) (l : list string) : bool :=
  existsb (String.eqb x) l.

Inductive field_class : Type := CName | CPhone | CEmail | CBirthday | CAddress.

(** The methods marked [@abstractmethod] in [AbstractField]. *)
Definition AbstractField_abstract : list string := ["_validate"].

(** The names each subclass binds in its own body. *)
Definition class_body (c : field_class) : list string :=
  match c with
  | CName => [mangle "Name" "__validate"]
  | CPhone => ["_validate"]
  | CEmail => ["_validate"]
  | CBirthday => ["_validate"; "get_date"]
  | CAddress => ["_validate"]
  end.

(** [cls.__abstractmethods__]: the abstract names of the base that the
    subclass body does not rebind. *)
Definition abstractmethods (c : field_class) : list string :=
  filter (fun m => negb (mem_str m (class_body c))) AbstractField_abstract.

(** ** Fields *)

Record Field (c : field_class) : Type := mkField { value : string }.

Arguments mkField {c} value.
Arguments value {c} f.

Definition Name : Type := Field CName.
Definition Phone : Type := Field CPhone.
Definition Email : Type := Field CEmail.
Definition Birthday : Type := Field CBirthday.
Definition Address : Type := Field CAddress.

(** An argument annotated [Phone | str] (and likewise for the other
    fields). *)
Inductive arg (c : field_class) : Type :=
| AField (f : Field c)
| AStr (s : string).

Arguments AField {c} f.
Arguments AStr {c} s.

Definition arg_value {c : field_class} (a : arg c) : string :=
  match a with
  | AField f => value f
  | AStr s => s
  end.

(** [AbstractField.__eq__] *)
Definition Field_eq {c : field_class} (self : Field c) (val : arg c) : bool :=
  String.eqb (value self) (arg_value val).

(** [AbstractField.__str__] *)
Definition Field_str {c : field_class} (self : Field c) : string := value self.

(** [AbstractField._validate]: the body is [pass]. *)
Definition AbstractField_validate (v : string) : result unit := Ok tt.

(** The method [Name] binds as [_Name__validate]. *)
Definition Name__validate (v : string) : result unit :=
  if negb (Nat.ltb 2 (String.length v)) then Raise ValueError else Ok tt.

Definition phone_separator (c : ascii) : bool :=
  (Ascii.eqb c " " || Ascii.eqb c "(" || Ascii.eqb c ")" || Ascii.eqb c "-")%bool.

(** [re.sub(r'[ \(\)\-]', '', value)] *)
Definition strip_separators (v : string) : string :=
  str_filter (fun c => negb (phone_separator c)) v.

Definition nine_digits : regex := Rep 9 (Class is_decimal).

(** [\+380\d{9}|380\d{9}|80\d{9}|0\d{9}] *)
Definition phone_pattern : regex :=
  Alt (lit_str "+380" nine_digits)
      (Alt (lit_str "380" nine_digits)
           (Alt (lit_str "80" nine_digits) (lit_str "0" nine_digits))).

(** [Phone._validate]: raises on a mismatch and otherwise returns the
    normalised number. *)
Definition Phone_validate (v : string) : result string :=
  let v := strip_separators v in
  if negb (fullmatch phone_pattern v) then Raise ValueError
  else Ok ("+380" ++ last_chars 9 v).

(** [Birthday._validate] *)
Definition Birthday_validate (today : date) (v : string) : result unit :=
  b_day <- fromisoformat v ;;
  if year today <? year b_day then Raise ValueError else Ok tt.

(** [Birthday.get_date] *)
Definition get_date (self : Birthday) : result date := fromisoformat (value self).

(** The setter of [value]: validate, discard what the validator
    returns, store the argument. *)
Definition set_value {R : Type} {c : field_class}
    (validate : string -> result R) (self : Field c) (v : string) : result (Field c) :=
  _ <- validate v ;;
  Ok (mkField v).

(** [cls(v)]: instantiation is refused while the class still has
    abstract methods; otherwise [__init__] runs the setter. *)
Definition Field_new {R : Type} (c : field_class)
    (validate : string -> result R) (v : string) : result (Field c) :=
  match abstractmethods c with
  | [] => _ <- validate v ;; Ok (mkField v)
  | _ :: _ => Raise TypeError
  end.

(** [Name] does not rebind [_validate], so the method its setter would
    reach is the inherited one. *)
Definition Name_new (v : string) : result Name := Field_new CName AbstractField_validate v.

Definition Phone_new (v : string) : result Phone := Field_new CPhone Phone_validate v.

Definition Birthday_new (today : date) (v : string) : result Birthday :=
  Field_new CBirthday (Birthday_validate today) v.

(** ** Record *)

Record record : Type := mkRecord {
  name : Name;
  phones : list Phone;
  email : option Email;
  birthday : option Birthday;
  address : option Address
}.

(** The names bound in the body of [class Record]. *)
Definition Record_class_body : list string :=
  ["__init__"; "add_phone"; "remove_phone"; "change_phone"; "change_email";
   "change_birthday"; "days_to_birthday"; "change_address"; "__str__";
   "__repr__"; "to_dict"].

(** What every instance inherits from [object] (the class has no other
    base). *)
Definition object_attrs : list string :=
  ["__class__"; "__delattr__"; "__dict__"; "__dir__"; "__doc__"; "__eq__";
   "__format__"; "__ge__"; "__getattribute__"; "__getstate__"; "__gt__";
   "__hash__"; "__init__"; "__init_subclass__"; "__le__"; "__lt__";
   "__module__"; "__ne__"; "__new__"; "__reduce__"; "__reduce_ex__";
   "__repr__"; "__setattr__"; "__sizeof__"; "__str__"; "__subclasshook__";
   "__weakref__"].

(** The attributes [__init__] assigns on the instance. *)
Definition Record_instance_attrs : list string :=
  ["name"; "phones"; "email"; "birthday"; "address"].

(** [self.attr] on a [Record] whose instance dictionary holds
    [instance]: found on the instance, in the class body or on
    [object], else [AttributeError]. *)
Definition Record_getattr (instance : list string) (attr : string) : result unit :=
  if mem_str attr (instance ++ Record_class_body ++ object_attrs)%list
  then Ok tt
  else Raise (AttributeError attr).

(** [self.attr(x)], where [impl] is what the attribute would be bound
    to. *)
Definition call_attr {A B : Type} (instance : list string) (attr : string)
    (impl : A -> result B) (x : A) : result B :=
  _ <- Record_getattr instance attr ;;
  impl x.

Fixpoint map_result {A B : Type} (f : A -> result B) (l : list A) : result (list B) :=
  match l with
  | [] => Ok []
  | x :: rest =>
      y <- f x ;;
      ys <- map_result f rest ;;
      Ok (y :: ys)
  end.

(** [item in self.phones]: some element compares equal to the item. *)
Definition phone_in (item : arg CPhone) (l : list Phone) : bool :=
  existsb (fun el => Field_eq el item) l.

(** [l.index(item)]: position of the first equal element. *)
Fixpoint list_index (item : arg CPhone) (l : list Phone) : result nat :=
  match l with
  | [] => Raise ValueError
  | el :: rest =>
      if Field_eq el item then Ok O
      else (i <- list_index item rest ;; Ok (S i))
  end.

(** [l[i] = x] for an index in range. *)
Fixpoint list_set {A : Type} (i : nat) (x : A) (l : list A) : list A :=
  match l, i with
  | [], _ => []
  | _ :: rest, O => x :: rest
  | y :: rest, S i' => y :: list_set i' x rest
  end.

(** [l.remove(item)]: drops the first equal element. *)
Fixpoint list_remove (item : arg CPhone) (l : list Phone) : list Phone :=
  match l with
  | [] => []
  | el :: rest => if Field_eq el item then rest else el :: list_remove item rest
  end.

Definition set_phones (self : record) (ps : list Phone) : record :=
  mkRecord (name self) ps (email self) (birthday self) (address self).

Section RecordMethods.

(** [Record] calls [self._name], [self._phone], [self._email],
    [self._birthday] and [self._address], and the class body binds
    none of them.  The variables stand for whatever such an attribute
    would do once looked up; the lookup itself is [Record_getattr]. *)
Variable _name : arg CName -> result Name.
Variable _phone : arg CPhone -> result Phone.
Variable _email : arg CEmail -> result Email.
Variable _birthday : arg CBirthday -> result Birthday.
Variable _address : arg CAddress -> result Address.

Definition convert_opt {A B : Type} (instance : list string) (attr : string)
    (impl : A -> result B) (x : option A) : result (option B) :=
  match x with
  | None => Ok None
  | Some a => b <- call_attr instance attr impl a ;; Ok (Some b)
  end.

(** [Record.__init__]; the instance dictionary grows with each
    assignment. *)
Definition Record_init (a_name : arg CName) (a_phones : list (arg CPhone))
    (a_email : option (arg CEmail)) (a_birthday : option (arg CBirthday))
    (a_address : option (arg CAddress)) : result record :=
  n <- call_attr [] "_name" _name a_name ;;
  ps <- map_result (call_attr ["name"] "_phone" _phone) a_phones ;;
  e <- convert_opt ["name"; "phones"] "_email" _email a_email ;;
  b <- convert_opt ["name"; "phones"; "email"] "_birthday" _birthday a_birthday ;;
  a <- convert_opt ["name"; "phones"; "email"; "birthday"] "_address" _address a_address ;;
  Ok (mkRecord n ps e b a).

(** [Record.add_phone] *)
Definition add_phone (self : record) (phone : arg CPhone) : result record :=
  if phone_in phone (phones self) then Raise ValueError
  else
    p <- call_attr Record_instance_attrs "_phone" _phone phone ;;
    Ok (set_phones self (phones self ++ [p])%list).

(** [Record.remove_phone] *)
Definition remove_phone (self : record) (phone : arg CPhone) : result record :=
  p <- call_attr Record_instance_attrs "_phone" _phone phone ;;
  if negb (phone_in (AField p) (phones self)) then Raise ValueError
  else Ok (set_phones self (list_remove (AField p) (phones self))).

(** [Record.change_phone] *)
Definition change_phone (self : record) (old_phone new_phone : arg CPhone)
    : result record :=
  old <- call_attr Record_instance_attrs "_phone" _phone old_phone ;;
  if negb (phone_in (AField old) (phones self)) then Raise ValueError
  else
    new <- call_attr Record_instance_attrs "_phone" _phone new_phone ;;
    if phone_in (AField new) (phones self) then Raise ValueError
    else
      inx <- list_index (AField old) (phones self) ;;
      Ok (set_phones self (list_set inx new (phones self))).

(** [Record.change_email] *)
Definition change_email (self : record) (e : arg CEmail) : result record :=
  x <- call_attr Record_instance_attrs "_email" _email e ;;
  Ok (mkRecord (name self) (phones self) (Some x) (birthday self) (address self)).

(** [Record.change_birthday] *)
Definition change_birthday (self : record) (b : arg CBirthday) : result record :=
  x <- call_attr Record_instance_attrs "_birthday" _birthday b ;;
  Ok (mkRecord (name self) (phones self) (email self) (Some x) (address self)).

(** [Record.change_address] *)
Definition change_address (self : record) (a : arg CAddress) : result record :=
  x <- call_attr Record_instance_attrs "_address" _address a ;;
  Ok (mkRecord (name self) (phones self) (email self) (birthday self) (Some x)).

(** [Record.days_to_birthday].  [depth] bounds the nesting of the
    recursive call in the handler; running out of it is Python's
    [RecursionError].  The handler passes the date of 28 February as
    the third positional argument of [Record], which is [email]. *)
Fixpoint days_to_birthday (depth : nat) (today : date) (self : record)
    {struct depth} : result Z :=
  match depth with
  | O => Raise RecursionError
  | S depth' =>
      match birthday self with
      | None => Raise KeyError
      | Some b =>
          try_except_ValueError
            (d <- get_date b ;;
             bday <- replace_year d (year today) ;;
             bday <- (if date_ltb bday today
                      then replace_year bday (year today + 1)
                      else Ok bday) ;;
             Ok (date_sub_days bday today))
            (feb28 <- replace_month_day today 2 28 ;;
             exept_temp <- Record_init (AField (name self)) []
                             (Some (AStr (isoformat feb28))) None None ;;
             n <- days_to_birthday depth' today exept_temp ;;
             Ok (n + 1))
      end
  end.

End RecordMethods.

(** The mapping [to_dict] stores under a record's name. *)
Record record_dict : Type := mkRecordDict {
  d_phones : list string;
  d_email : option string;
  d_birthday : option string;
  d_address : option string
}.

(** ** Dictionaries in insertion order *)

Definition dict (V : Type) : Type := list (string * V).

Fixpoint dict_get {V : Type} (d : dict V) (key : string) : option V :=
  match d with
  | [] => None
  | (k, v) :: rest => if String.eqb k key then Some v else dict_get rest key
  end.

(** [key in d] *)
Definition dict_mem {V : Type} (d : dict V) (key : string) : bool :=
  match dict_get d key with Some _ => true | None => false end.

(** [d[key] = v]: a present key keeps its position, a new one goes
    last. *)
Fixpoint dict_set {V : Type} (d : dict V) (key : string) (v : V) : dict V :=
  match d with
  | [] => [(key, v)]
  | (k, w) :: rest =>
      if String.eqb k key then (k, v) :: rest else (k, w) :: dict_set rest key v
  end.

(** [del d[key]] *)
Fixpoint dict_del {V : Type} (d : dict V) (key : string) : dict V :=
  match d with
  | [] => []
  | (k, w) :: rest => if String.eqb k key then rest else (k, w) :: dict_del rest key
  end.

(** [d.values()] *)
Definition dict_values {V : Type} (d : dict V) : list V := map snd d.

(** [d.update(other)] *)
Definition dict_update {V : Type} (d other : dict V) : dict V :=
  fold_left (fun acc kv => dict_set acc (fst kv) (snd kv)) other d.

(** [Record.to_dict] *)
Definition Record_to_dict (self : record) : dict record_dict :=
  [(Field_str (name self),
    mkRecordDict (map Field_str (phones self))
                 (option_map Field_str (email self))
                 (option_map Field_str (birthday self))
                 (option_map Field_str (address self)))].

(** ** AddressBook

    The state of an [AddressBook] is the dictionary [self.data] of
    [UserDict].  The second base class, [AbstractData], is imported from
    another module; every method below is bound in the body of
    [AddressBook] itself. *)

Definition AddressBook : Type := dict record.

(** [AddressBook.__setitem__]; the value is a [record] by its type, so
    the [isinstance] test passes. *)
Definition setitem (self : AddressBook) (key : string) (val : record)
    : AddressBook * result unit :=
  if dict_mem self key then (self, Raise KeyError)
  else (dict_set self key val, Ok tt).

(** [AddressBook.add_record] *)
Definition add_record (self : AddressBook) (r : record) : AddressBook * result unit :=
  setitem self (value (name r)) r.

(** [AddressBook.__getitem__] *)
Definition getitem (self : AddressBook) (key : string) : result record :=
  match dict_get self key with
  | None => Raise KeyError
  | Some r => Ok r
  end.

(** [AddressBook.__delitem__] *)
Definition delitem (self : AddressBook) (key : string) : AddressBook * result unit :=
  if negb (dict_mem self key) then (self, Raise KeyError)
  else (dict_del self key, Ok tt).

(** One turn of the loop of [groups_days_to_bd]: [record.birthday] may
    be [None], which has no [get_date]. *)
Definition bd_step (current_date last_date : date) (list_records : list record)
    (r : record) : result (list record) :=
  b <- match birthday r with
       | None => Raise (AttributeError "get_date")
       | Some b => get_date b
       end ;;
  b <- replace_year b (year current_date) ;;
  if (date_leb current_date b && date_leb b last_date)%bool
  then Ok (list_records ++ [r])%list
  else Ok list_records.

Fixpoint bd_loop (current_date last_date : date) (list_records : list record)
    (rs : list record) : result (list record) :=
  match rs with
  | [] => Ok list_records
  | r :: rest =>
      acc <- bd_step current_date last_date list_records r ;;
      bd_loop current_date last_date acc rest
  end.

(** [AddressBook.groups_days_to_bd] *)
Definition groups_days_to_bd (today : date) (self : AddressBook) (input_days : string)
    : result (list record) :=
  if negb (isdigit input_days) then Raise ValueError
  else
    let current_date := today in
    days <- int_of_str input_days ;;
    time_delta <- timedelta_days days ;;
    last_date <- date_add current_date time_delta ;;
    bd_loop current_date last_date [] (dict_values self).

(** [AddressBook.to_dict] *)
Definition AddressBook_to_dict (self : AddressBook) : dict record_dict :=
  fold_left (fun res_dict r => dict_update res_dict (Record_to_dict r))
            (dict_values self) [].

Section BookMethods.

Variable _name : arg CName -> result Name.
Variable _phone : arg CPhone -> result Phone.
Variable _email : arg CEmail -> result Email.
Variable _birthday : arg CBirthday -> result Birthday.
Variable _address : arg CAddress -> result Address.

(** [AddressBook.from_dict], on an argument that is a mapping of the
    shape [to_dict] produces.  Records added before a failing entry
    stay in the book. *)
Fixpoint from_dict (self : AddressBook) (data_json : dict record_dict)
    {struct data_json} : AddressBook * result unit :=
  match data_json with
  | [] => (self, Ok tt)
  | (nm, rd) :: rest =>
      match Record_init _name _phone _email _birthday _address
              (AStr nm) (map AStr (d_phones rd))
              (option_map AStr (d_email rd))
              (option_map AStr (d_birthday rd))
              (option_map AStr (d_address rd)) with
      | Raise e => (self, Raise e)
      | Ok r =>
          match add_record self r with
          | (self', Ok _) => from_dict self' rest
          | (self', Raise e) => (self', Raise e)
          end
      end
  end.

End BookMethods.

(** *** [from_dict] on an arbitrary argument

    The values a persisted mapping can hold: [None], booleans, numbers,
    strings, lists and dictionaries.  A float is kept as its printed
    form; no operation here looks inside it. *)
#[warnings="-register-all"]
Inductive pyval : Type :=
| PNone
| PBool (b : bool)
| PInt (z : Z)
| PFloat (repr : string)
| PStr (s : string)
| PList (items : list pyval)
| PDict (items : list (pyval * pyval)).

(** A dictionary key equals the string [key] only when it is that
    string. *)
Definition key_is (key : string) (k : pyval) : bool :=
  match k with
  | PStr s => String.eqb s key
  | _ => false
  end.

Fixpoint pydict_get (items : list (pyval * pyval)) (key : string) : option pyval :=
  match items with
  | [] => None
  | (k, v) :: rest => if key_is key k then Some v else pydict_get rest key
  end.

(** [v[key]] for a string [key]: a dictionary answers or raises
    [KeyError]; every other kind of value raises [TypeError] (strings
    and lists take integer indices, the rest take none). *)
Definition subscript (v : pyval) (key : string) : result pyval :=
  match v with
  | PDict items =>
      match pydict_get items key with
      | Some x => Ok x
      | None => Raise KeyError
      end
  | _ => Raise TypeError
  end.

Section BookImport.

(** What [Record.__init__] would go on to do with its five arguments
    once [self._name] had been found. *)
Variable rest_of_init : pyval -> pyval -> pyval -> pyval -> pyval -> result record.

(** [Record(name=..., phones=..., email=..., birthday=...,
    address=...)] on arbitrary values. *)
Definition Record_call (a_name a_phones a_email a_birthday a_address : pyval)
    : result record :=
  _ <- Record_getattr [] "_name" ;;
  rest_of_init a_name a_phones a_email a_birthday a_address.

(** The loop of [from_dict]: the four subscripts are evaluated, in the
    order written, before [Record] is called. *)
Fixpoint from_dict_items (self : AddressBook) (items : list (pyval * pyval))
    {struct items} : AddressBook * result unit :=
  match items with
  | [] => (self, Ok tt)
  | (nm, rd) :: rest =>
      match (ph <- subscript rd "phones" ;;
             em <- subscript rd "email" ;;
             bd <- subscript rd "birthday" ;;
             ad <- subscript rd "address" ;;
             Record_call nm ph em bd ad) with
      | Raise e => (self, Raise e)
      | Ok r =>
          match add_record self r with
          | (self', Ok _) => from_dict_items self' rest
          | (self', Raise e) => (self', Raise e)
          end
      end
  end.

(** [AddressBook.from_dict] on any argument: the [isinstance] test
    comes first. *)
Definition from_dict_any (self : AddressBook) (data_json : pyval)
    : AddressBook * result unit :=
  match data_json with
  | PDict items => from_dict_items self items
  | _ => (self, Raise TypeError)
  end.

End BookImport.

(** A mapping of the shape [to_dict] produces, as a value. *)
Definition pyval_of_opt (x : option string) : pyval :=
  match x with
  | None => PNone
  | Some s => PStr s
  end.

Definition pyval_of_entry (rd : record_dict) : pyval :=
  PDict [(PStr "phones", PList (map PStr (d_phones rd)));
         (PStr "email", pyval_of_opt (d_email rd));
         (PStr "birthday", pyval_of_opt (d_birthday rd));
         (PStr "address", pyval_of_opt (d_address rd))].

Definition pyval_of_dict (data : dict record_dict) : pyval :=
  PDict (map (fun kv => (PStr (fst kv), pyval_of_entry (snd kv))) data).

(** The entry carries the four keys [from_dict] reads. *)
Definition has_record_keys (items : list (pyval * pyval)) : bool :=
  (match pydict_get items "phones" with Some _ => true | None => false end
   && match pydict_get items "email" with Some _ => true | None => false end
   && match pydict_get items "birthday" with Some _ => true | None => false end
   && match pydict_get items "address" with Some _ => true | None => false end)%bool.

(** [str(x)] inside an f-string for an optional field: [None] prints
    as the text [None]. *)
Definition format_opt {c : field_class} (x : option (Field c)) : string :=
  match x with
  | None => "None"
  | Some f => Field_str f
  end.

(** The text [search] builds for a record. *)
Definition str_val_record (r : record) : string :=
  Field_str (name r)
  ++ join " " (map Field_str (phones r))
  ++ format_opt (email r)
  ++ format_opt (birthday r)
  ++ format_opt (address r).

Fixpoint search_loop (search_word : string) (search_list : list record)
    (rs : list record) : list record :=
  match rs with
  | [] => search_list
  | r :: rest =>
      if contains (lower search_word) (lower (str_val_record r))
      then search_loop search_word (search_list ++ [r])%list rest
      else search_loop search_word search_list rest
  end.

(** [AddressBook.search] *)
Definition search (self : AddressBook) (search_word : string) : list record :=
  search_loop search_word [] (dict_values self).

(** The loop of [iterator]: [counter] starts at 1, [len] is
    [len(self.data)], [list_records] is the batch being filled; the
    result lists the batches in the order they are yielded. *)
Fixpoint iterator_loop (item_number len counter : Z) (list_records : list record)
    (rs : list record) : list (list record) :=
  match rs with
  | [] => []
  | r :: rest =>
      let list_records := (list_records ++ [r])%list in
      if ((counter mod item_number =? 0) || (counter =? len))%bool
      then list_records :: iterator_loop item_number len (counter + 1) [] rest
      else iterator_loop item_number len (counter + 1) list_records rest
  end.

(** [AddressBook.iterator]: the batches the generator yields when it is
    run to the end, or the exception its first step raises. *)
Definition iterator (self : AddressBook) (item_number : Z) : result (list (list record)) :=
  if item_number <=? 0 then Raise ValueError
  else
    let len := Z.of_nat (List.length self) in
    let item_number := if len <? item_number then len else item_number in
    Ok (iterator_loop item_number len 1 [] (dict_values self)).

(** ** Email and Address *)

(** [str.isspace] per character, which is also the class [\s] of a
    [str] pattern: the ASCII controls U+0009..U+000D and
    U+001C..U+001F, the space, U+0085 and U+00A0. *)
Definition is_space (c : ascii) : bool :=
  (in_range 9 13 c || in_range 28 32 c || N.eqb (code c) 133 || N.eqb (code c) 160)%bool.

(** [s.isspace()]: false on the empty string. *)
Definition isspace (s : string) : bool :=
  (negb (str_is_empty s) && str_all is_space s)%bool.

(** The class [[a-zA-Z]]. *)
Definition is_letter (c : ascii) : bool := (in_range 65 90 c || in_range 97 122 c)%bool.

(** The class [[\S.]]: not whitespace, or a dot. *)
Definition nonspace_or_dot (c : ascii) : bool := (negb (is_space c) || Ascii.eqb c ".")%bool.

(** Patterns with an open-ended repetition of a character class
    ([[...]+] is [Many 1], [[...]{2,}] is [Many 2]). *)
Inductive regex_ext : Type :=
| Base (r : regex)
| Many (min : nat) (p : ascii -> bool)
| SeqE (a b : regex_ext).

Fixpoint match_many (p : ascii -> bool) (min : nat) (s : string) (k : string -> bool)
    {struct s} : bool :=
  (match min with O => k s | S _ => false end
   || match s with
      | String c s' => p c && match_many p (Nat.pred min) s' k
      | EmptyString => false
      end)%bool.

Fixpoint match_ext (r : regex_ext) (s : string) (k : string -> bool) : bool :=
  match r with
  | Base r0 => match_k r0 s k
  | Many min p => match_many p min s k
  | SeqE a b => match_ext a s (fun s' => match_ext b s' k)
  end.

Definition fullmatch_ext (r : regex_ext) (s : string) : bool := match_ext r s str_is_empty.

(** [[a-zA-Z]{1}[\S.]+@[a-zA-Z]+\.[a-zA-Z]{2,}] *)
Definition email_pattern : regex_ext :=
  SeqE (Base (Rep 1 (Class is_letter)))
       (SeqE (Many 1 nonspace_or_dot)
             (SeqE (Base (Lit "@"))
                   (SeqE (Many 1 is_letter)
                         (SeqE (Base (Lit ".")) (Many 2 is_letter))))).

(** [Email._validate] *)
Definition Email_validate (v : string) : result unit :=
  if negb (fullmatch_ext email_pattern v) then Raise ValueError else Ok tt.

Definition Email_new (v : string) : result Email := Field_new CEmail Email_validate v.

(** [Address._validate] *)
Definition Address_validate (v : string) : result unit :=
  if isspace v then Raise ValueError
  else if negb (Nat.leb 5 (String.length v) && Nat.leb (String.length v) 50)%bool
       then Raise ValueError
       else Ok tt.

Definition Address_new (v : string) : result Address := Field_new CAddress Address_validate v.

(** ** Rendering *)

Definition nl : string := String (ascii_of_nat 10) "".
Definition tab : string := String (ascii_of_nat 9) "".

(** [x or "Empty"] for an optional field inside an f-string: a field
    object is always true, [None] is false. *)
Definition or_Empty {c : field_class} (x : option (Field c)) : string :=
  match x with
  | None => "Empty"
  | Some f => Field_str f
  end.

(** [s or "Empty"] for a string: the empty string is false. *)
Definition str_or_Empty (s : string) : string :=
  if str_is_empty s then "Empty" else s.

(** [Record.__str__] *)
Definition Record_str (self : record) : string :=
  let birthday_str := "birthday: " ++ or_Empty (birthday self) in
  let email_str := "email: " ++ or_Empty (email self) in
  let address_str := "address: " ++ or_Empty (address self) in
  let phones_str := join ", " (map Field_str (phones self)) in
  "<Record>:" ++ nl ++ tab ++ "name: " ++ Field_str (name self) ++ nl
  ++ tab ++ "phones: " ++ str_or_Empty phones_str ++ nl
  ++ tab ++ email_str ++ nl
  ++ tab ++ birthday_str ++ nl
  ++ tab ++ address_str ++ nl.

(** [AddressBook.__str__] *)
Definition AddressBook_str (self : AddressBook) : string :=
  join nl (map Record_str (dict_values self)).

(** [[s[i] for s in l]]; [None] stands for the [IndexError] of an index
    past the end of one of the strings. *)
Fixpoint chars_at (i : nat) (l : list string) : option (list string) :=
  match l with
  | [] => Some []
  | s :: rest =>
      match String.get i s with
      | None => None
      | Some c => option_map (cons (String c "")) (chars_at i rest)
      end
  end.

(** [AddressBook.output_all_data]; [None] stands for [IndexError]. *)
Definition output_all_data (self : AddressBook) : option string :=
  option_map (join nl) (chars_at 9 (map Record_str (dict_values self))).

(** ** Strings of arbitrary code points

    [search] is also modelled on strings whose characters are code
    points of any size, with [str.lower] as the interpreter computes
    it: each code point is replaced by its lower-case mapping, and a
    capital sigma becomes a final or a medial small sigma by what
    surrounds it.  The three tables are those of Unicode 14.0. *)
Module Unicode.

Definition ustr : Type := list N.

(** A string literal as code points. *)
Definition of_string (s : string) : ustr :=
  map N_of_ascii (list_ascii_of_string s).

(** Runs of code points with a one-character lower-case mapping:
    (first, last, step, image of the first); the members of a run are
    [step] apart and each maps as far from the image as it is from the
    first. *)
Definition lower_runs : list (N * N * N * N) :=
  [
   (0x41, 0x5A, 1, 0x61); (0xC0, 0xD6, 1, 0xE0); (0xD8, 0xDE, 1, 0xF8); (0x100, 0x12E, 2, 0x101);
   (0x132, 0x136, 2, 0x133); (0x139, 0x147, 2, 0x13A); (0x14A, 0x176, 2, 0x14B); (0x178, 0x178, 1, 0xFF);
   (0x179, 0x17D, 2, 0x17A); (0x181, 0x181, 1, 0x253); (0x182, 0x184, 2, 0x183); (0x186, 0x186, 1, 0x254);
   (0x187, 0x187, 1, 0x188); (0x189, 0x18A, 1, 0x256); (0x18B, 0x18B, 1, 0x18C); (0x18E, 0x18E, 1, 0x1DD);
   (0x18F, 0x18F, 1, 0x259); (0x190, 0x190, 1, 0x25B); (0x191, 0x191, 1, 0x192); (0x193, 0x193, 1, 0x260);
   (0x194, 0x194, 1, 0x263); (0x196, 0x196, 1, 0x269); (0x197, 0x197, 1, 0x268); (0x198, 0x198, 1, 0x199);
   (0x19C, 0x19C, 1, 0x26F); (0x19D, 0x19D, 1, 0x272); (0x19F, 0x19F, 1, 0x275); (0x1A0, 0x1A4, 2, 0x1A1);
   (0x1A6, 0x1A6, 1, 0x280); (0x1A7, 0x1A7, 1, 0x1A8); (0x1A9, 0x1A9, 1, 0x283); (0x1AC, 0x1AC, 1, 0x1AD);
   (0x1AE, 0x1AE, 1, 0x288); (0x1AF, 0x1AF, 1, 0x1B0); (0x1B1, 0x1B2, 1, 0x28A); (0x1B3, 0x1B5, 2, 0x1B4);
   (0x1B7, 0x1B7, 1, 0x292); (0x1B8, 0x1B8, 1, 0x1B9); (0x1BC, 0x1BC, 1, 0x1BD); (0x1C4, 0x1C4, 1, 0x1C6);
   (0x1C5, 0x1C5, 1, 0x1C6); (0x1C7, 0x1C7, 1, 0x1C9); (0x1C8, 0x1C8, 1, 0x1C9); (0x1CA, 0x1CA, 1, 0x1CC);
   (0x1CB, 0x1DB, 2, 0x1CC); (0x1DE, 0x1EE, 2, 0x1DF); (0x1F1, 0x1F1, 1, 0x1F3); (0x1F2, 0x1F4, 2, 0x1F3);
   (0x1F6, 0x1F6, 1, 0x195); (0x1F7, 0x1F7, 1, 0x1BF); (0x1F8, 0x21E, 2, 0x1F9); (0x220, 0x220, 1, 0x19E);
   (0x222, 0x232, 2, 0x223); (0x23A, 0x23A, 1, 0x2C65); (0x23B, 0x23B, 1, 0x23C); (0x23D, 0x23D, 1, 0x19A);
   (0x23E, 0x23E, 1, 0x2C66); (0x241, 0x241, 1, 0x242); (0x243, 0x243, 1, 0x180); (0x244, 0x244, 1, 0x289);
   (0x245, 0x245, 1, 0x28C); (0x246, 0x24E, 2, 0x247); (0x370, 0x372, 2, 0x371); (0x376, 0x376, 1, 0x377);
   (0x37F, 0x37F, 1, 0x3F3); (0x386, 0x386, 1, 0x3AC); (0x388, 0x38A, 1, 0x3AD); (0x38C, 0x38C, 1, 0x3CC);
   (0x38E, 0x38F, 1, 0x3CD); (0x391, 0x3A1, 1, 0x3B1); (0x3A4, 0x3AB, 1, 0x3C4); (0x3CF, 0x3CF, 1, 0x3D7);
   (0x3D8, 0x3EE, 2, 0x3D9); (0x3F4, 0x3F4, 1, 0x3B8); (0x3F7, 0x3F7, 1, 0x3F8); (0x3F9, 0x3F9, 1, 0x3F2);
   (0x3FA, 0x3FA, 1, 0x3FB); (0x3FD, 0x3FF, 1, 0x37B); (0x400, 0x40F, 1, 0x450); (0x410, 0x42F, 1, 0x430);
   (0x460, 0x480, 2, 0x461); (0x48A, 0x4BE, 2, 0x48B); (0x4C0, 0x4C0, 1, 0x4CF); (0x4C1, 0x4CD, 2, 0x4C2);
   (0x4D0, 0x52E, 2, 0x4D1); (0x531, 0x556, 1, 0x561); (0x10A0, 0x10C5, 1, 0x2D00); (0x10C7, 0x10C7, 1, 0x2D27);
   (0x10CD, 0x10CD, 1, 0x2D2D); (0x13A0, 0x13EF, 1, 0xAB70); (0x13F0, 0x13F5, 1, 0x13F8); (0x1C90, 0x1CBA, 1, 0x10D0);
   (0x1CBD, 0x1CBF, 1, 0x10FD); (0x1E00, 0x1E94, 2, 0x1E01); (0x1E9E, 0x1E9E, 1, 0xDF); (0x1EA0, 0x1EFE, 2, 0x1EA1);
   (0x1F08, 0x1F0F, 1, 0x1F00); (0x1F18, 0x1F1D, 1, 0x1F10); (0x1F28, 0x1F2F, 1, 0x1F20); (0x1F38, 0x1F3F, 1, 0x1F30);
   (0x1F48, 0x1F4D, 1, 0x1F40); (0x1F59, 0x1F5F, 2, 0x1F51); (0x1F68, 0x1F6F, 1, 0x1F60); (0x1F88, 0x1F8F, 1, 0x1F80);
   (0x1F98, 0x1F9F, 1, 0x1F90); (0x1FA8, 0x1FAF, 1, 0x1FA0); (0x1FB8, 0x1FB9, 1, 0x1FB0); (0x1FBA, 0x1FBB, 1, 0x1F70);
   (0x1FBC, 0x1FBC, 1, 0x1FB3); (0x1FC8, 0x1FCB, 1, 0x1F72); (0x1FCC, 0x1FCC, 1, 0x1FC3); (0x1FD8, 0x1FD9, 1, 0x1FD0);
   (0x1FDA, 0x1FDB, 1, 0x1F76); (0x1FE8, 0x1FE9, 1, 0x1FE0); (0x1FEA, 0x1FEB, 1, 0x1F7A); (0x1FEC, 0x1FEC, 1, 0x1FE5);
   (0x1FF8, 0x1FF9, 1, 0x1F78); (0x1FFA, 0x1FFB, 1, 0x1F7C); (0x1FFC, 0x1FFC, 1, 0x1FF3); (0x2126, 0x2126, 1, 0x3C9);
   (0x212A, 0x212A, 1, 0x6B); (0x212B, 0x212B, 1, 0xE5); (0x2132, 0x2132, 1, 0x214E); (0x2160, 0x216F, 1, 0x2170);
   (0x2183, 0x2183, 1, 0x2184); (0x24B6, 0x24CF, 1, 0x24D0); (0x2C00, 0x2C2F, 1, 0x2C30); (0x2C60, 0x2C60, 1, 0x2C61);
   (0x2C62, 0x2C62, 1, 0x26B); (0x2C63, 0x2C63, 1, 0x1D7D); (0x2C64, 0x2C64, 1, 0x27D); (0x2C67, 0x2C6B, 2, 0x2C68);
   (0x2C6D, 0x2C6D, 1, 0x251); (0x2C6E, 0x2C6E, 1, 0x271); (0x2C6F, 0x2C6F, 1, 0x250); (0x2C70, 0x2C70, 1, 0x252);
   (0x2C72, 0x2C72, 1, 0x2C73); (0x2C75, 0x2C75, 1, 0x2C76); (0x2C7E, 0x2C7F, 1, 0x23F); (0x2C80, 0x2CE2, 2, 0x2C81);
   (0x2CEB, 0x2CED, 2, 0x2CEC); (0x2CF2, 0x2CF2, 1, 0x2CF3); (0xA640, 0xA66C, 2, 0xA641); (0xA680, 0xA69A, 2, 0xA681);
   (0xA722, 0xA72E, 2, 0xA723); (0xA732, 0xA76E, 2, 0xA733); (0xA779, 0xA77B, 2, 0xA77A); (0xA77D, 0xA77D, 1, 0x1D79);
   (0xA77E, 0xA786, 2, 0xA77F); (0xA78B, 0xA78B, 1, 0xA78C); (0xA78D, 0xA78D, 1, 0x265); (0xA790, 0xA792, 2, 0xA791);
   (0xA796, 0xA7A8, 2, 0xA797); (0xA7AA, 0xA7AA, 1, 0x266); (0xA7AB, 0xA7AB, 1, 0x25C); (0xA7AC, 0xA7AC, 1, 0x261);
   (0xA7AD, 0xA7AD, 1, 0x26C); (0xA7AE, 0xA7AE, 1, 0x26A); (0xA7B0, 0xA7B0, 1, 0x29E); (0xA7B1, 0xA7B1, 1, 0x287);
   (0xA7B2, 0xA7B2, 1, 0x29D); (0xA7B3, 0xA7B3, 1, 0xAB53); (0xA7B4, 0xA7C2, 2, 0xA7B5); (0xA7C4, 0xA7C4, 1, 0xA794);
   (0xA7C5, 0xA7C5, 1, 0x282); (0xA7C6, 0xA7C6, 1, 0x1D8E); (0xA7C7, 0xA7C9, 2, 0xA7C8); (0xA7D0, 0xA7D0, 1, 0xA7D1);
   (0xA7D6, 0xA7D8, 2, 0xA7D7); (0xA7F5, 0xA7F5, 1, 0xA7F6); (0xFF21, 0xFF3A, 1, 0xFF41); (0x10400, 0x10427, 1, 0x10428);
   (0x104B0, 0x104D3, 1, 0x104D8); (0x10570, 0x1057A, 1, 0x10597); (0x1057C, 0x1058A, 1, 0x105A3); (0x1058C, 0x10592, 1, 0x105B3);
   (0x10594, 0x10595, 1, 0x105BB); (0x10C80, 0x10CB2, 1, 0x10CC0); (0x118A0, 0x118BF, 1, 0x118C0); (0x16E40, 0x16E5F, 1, 0x16E60);
   (0x1E900, 0x1E921, 1, 0x1E922)
  ]%N.

(** Code points with the property Cased, as ranges (first, last). *)
Definition cased_ranges : list (N * N) :=
  [
   (0x41, 0x5A); (0x61, 0x7A); (0xAA, 0xAA); (0xB5, 0xB5); (0xBA, 0xBA); (0xC0, 0xD6);
   (0xD8, 0xF6); (0xF8, 0x1BA); (0x1BC, 0x1BF); (0x1C4, 0x293); (0x295, 0x2B8); (0x2C0, 0x2C1);
   (0x2E0, 0x2E4); (0x345, 0x345); (0x370, 0x373); (0x376, 0x377); (0x37A, 0x37D); (0x37F, 0x37F);
   (0x386, 0x386); (0x388, 0x38A); (0x38C, 0x38C); (0x38E, 0x3A1); (0x3A3, 0x3F5); (0x3F7, 0x481);
   (0x48A, 0x52F); (0x531, 0x556); (0x560, 0x588); (0x10A0, 0x10C5); (0x10C7, 0x10C7); (0x10CD, 0x10CD);
   (0x10D0, 0x10FA); (0x10FD, 0x10FF); (0x13A0, 0x13F5); (0x13F8, 0x13FD); (0x1C80, 0x1C88); (0x1C90, 0x1CBA);
   (0x1CBD, 0x1CBF); (0x1D00, 0x1DBF); (0x1E00, 0x1F15); (0x1F18, 0x1F1D); (0x1F20, 0x1F45); (0x1F48, 0x1F4D);
   (0x1F50, 0x1F57); (0x1F59, 0x1F59); (0x1F5B, 0x1F5B); (0x1F5D, 0x1F5D); (0x1F5F, 0x1F7D); (0x1F80, 0x1FB4);
   (0x1FB6, 0x1FBC); (0x1FBE, 0x1FBE); (0x1FC2, 0x1FC4); (0x1FC6, 0x1FCC); (0x1FD0, 0x1FD3); (0x1FD6, 0x1FDB);
   (0x1FE0, 0x1FEC); (0x1FF2, 0x1FF4); (0x1FF6, 0x1FFC); (0x2071, 0x2071); (0x207F, 0x207F); (0x2090, 0x209C);
   (0x2102, 0x2102); (0x2107, 0x2107); (0x210A, 0x2113); (0x2115, 0x2115); (0x2119, 0x211D); (0x2124, 0x2124);
   (0x2126, 0x2126); (0x2128, 0x2128); (0x212A, 0x212D); (0x212F, 0x2134); (0x2139, 0x2139); (0x213C, 0x213F);
   (0x2145, 0x2149); (0x214E, 0x214E); (0x2160, 0x217F); (0x2183, 0x2184); (0x24B6, 0x24E9); (0x2C00, 0x2CE4);
   (0x2CEB, 0x2CEE); (0x2CF2, 0x2CF3); (0x2D00, 0x2D25); (0x2D27, 0x2D27); (0x2D2D, 0x2D2D); (0xA640, 0xA66D);
   (0xA680, 0xA69D); (0xA722, 0xA787); (0xA78B, 0xA78E); (0xA790, 0xA7CA); (0xA7D0, 0xA7D1); (0xA7D3, 0xA7D3);
   (0xA7D5, 0xA7D9); (0xA7F5, 0xA7F6); (0xA7F8, 0xA7FA); (0xAB30, 0xAB5A); (0xAB5C, 0xAB68); (0xAB70, 0xABBF);
   (0xFB00, 0xFB06); (0xFB13, 0xFB17); (0xFF21, 0xFF3A); (0xFF41, 0xFF5A); (0x10400, 0x1044F); (0x104B0, 0x104D3);
   (0x104D8, 0x104FB); (0x10570, 0x1057A); (0x1057C, 0x1058A); (0x1058C, 0x10592); (0x10594, 0x10595); (0x10597, 0x105A1);
   (0x105A3, 0x105B1); (0x105B3, 0x105B9); (0x105BB, 0x105BC); (0x10780, 0x10780); (0x10783, 0x10785); (0x10787, 0x107B0);
   (0x107B2, 0x107BA); (0x10C80, 0x10CB2); (0x10CC0, 0x10CF2); (0x118A0, 0x118DF); (0x16E40, 0x16E7F); (0x1D400, 0x1D454);
   (0x1D456, 0x1D49C); (0x1D49E, 0x1D49F); (0x1D4A2, 0x1D4A2); (0x1D4A5, 0x1D4A6); (0x1D4A9, 0x1D4AC); (0x1D4AE, 0x1D4B9);
   (0x1D4BB, 0x1D4BB); (0x1D4BD, 0x1D4C3); (0x1D4C5, 0x1D505); (0x1D507, 0x1D50A); (0x1D50D, 0x1D514); (0x1D516, 0x1D51C);
   (0x1D51E, 0x1D539); (0x1D53B, 0x1D53E); (0x1D540, 0x1D544); (0x1D546, 0x1D546); (0x1D54A, 0x1D550); (0x1D552, 0x1D6A5);
   (0x1D6A8, 0x1D6C0); (0x1D6C2, 0x1D6DA); (0x1D6DC, 0x1D6FA); (0x1D6FC, 0x1D714); (0x1D716, 0x1D734); (0x1D736, 0x1D74E);
   (0x1D750, 0x1D76E); (0x1D770, 0x1D788); (0x1D78A, 0x1D7A8); (0x1D7AA, 0x1D7C2); (0x1D7C4, 0x1D7CB); (0x1DF00, 0x1DF09);
   (0x1DF0B, 0x1DF1E); (0x1E900, 0x1E943); (0x1F130, 0x1F149); (0x1F150, 0x1F169); (0x1F170, 0x1F189)
  ]%N.

(** Code points with the property Case_Ignorable, as ranges. *)
Definition case_ignorable_ranges : list (N * N) :=
  [
   (0x27, 0x27); (0x2E, 0x2E); (0x3A, 0x3A); (0x5E, 0x5E); (0x60, 0x60); (0xA8, 0xA8);
   (0xAD, 0xAD); (0xAF, 0xAF); (0xB4, 0xB4); (0xB7, 0xB8); (0x2B0, 0x36F); (0x374, 0x375);
   (0x37A, 0x37A); (0x384, 0x385); (0x387, 0x387); (0x483, 0x489); (0x559, 0x559); (0x55F, 0x55F);
   (0x591, 0x5BD); (0x5BF, 0x5BF); (0x5C1, 0x5C2); (0x5C4, 0x5C5); (0x5C7, 0x5C7); (0x5F4, 0x5F4);
   (0x600, 0x605); (0x610, 0x61A); (0x61C, 0x61C); (0x640, 0x640); (0x64B, 0x65F); (0x670, 0x670);
   (0x6D6, 0x6DD); (0x6DF, 0x6E8); (0x6EA, 0x6ED); (0x70F, 0x70F); (0x711, 0x711); (0x730, 0x74A);
   (0x7A6, 0x7B0); (0x7EB, 0x7F5); (0x7FA, 0x7FA); (0x7FD, 0x7FD); (0x816, 0x82D); (0x859, 0x85B);
   (0x888, 0x888); (0x890, 0x891); (0x898, 0x89F); (0x8C9, 0x902); (0x93A, 0x93A); (0x93C, 0x93C);
   (0x941, 0x948); (0x94D, 0x94D); (0x951, 0x957); (0x962, 0x963); (0x971, 0x971); (0x981, 0x981);
   (0x9BC, 0x9BC); (0x9C1, 0x9C4); (0x9CD, 0x9CD); (0x9E2, 0x9E3); (0x9FE, 0x9FE); (0xA01, 0xA02);
   (0xA3C, 0xA3C); (0xA41, 0xA42); (0xA47, 0xA48); (0xA4B, 0xA4D); (0xA51, 0xA51); (0xA70, 0xA71);
   (0xA75, 0xA75); (0xA81, 0xA82); (0xABC, 0xABC); (0xAC1, 0xAC5); (0xAC7, 0xAC8); (0xACD, 0xACD);
   (0xAE2, 0xAE3); (0xAFA, 0xAFF); (0xB01, 0xB01); (0xB3C, 0xB3C); (0xB3F, 0xB3F); (0xB41, 0xB44);
   (0xB4D, 0xB4D); (0xB55, 0xB56); (0xB62, 0xB63); (0xB82, 0xB82); (0xBC0, 0xBC0); (0xBCD, 0xBCD);
   (0xC00, 0xC00); (0xC04, 0xC04); (0xC3C, 0xC3C); (0xC3E, 0xC40); (0xC46, 0xC48); (0xC4A, 0xC4D);
   (0xC55, 0xC56); (0xC62, 0xC63); (0xC81, 0xC81); (0xCBC, 0xCBC); (0xCBF, 0xCBF); (0xCC6, 0xCC6);
   (0xCCC, 0xCCD); (0xCE2, 0xCE3); (0xD00, 0xD01); (0xD3B, 0xD3C); (0xD41, 0xD44); (0xD4D, 0xD4D);
   (0xD62, 0xD63); (0xD81, 0xD81); (0xDCA, 0xDCA); (0xDD2, 0xDD4); (0xDD6, 0xDD6); (0xE31, 0xE31);
   (0xE34, 0xE3A); (0xE46, 0xE4E); (0xEB1, 0xEB1); (0xEB4, 0xEBC); (0xEC6, 0xEC6); (0xEC8, 0xECD);
   (0xF18, 0xF19); (0xF35, 0xF35); (0xF37, 0xF37); (0xF39, 0xF39); (0xF71, 0xF7E); (0xF80, 0xF84);
   (0xF86, 0xF87); (0xF8D, 0xF97); (0xF99, 0xFBC); (0xFC6, 0xFC6); (0x102D, 0x1030); (0x1032, 0x1037);
   (0x1039, 0x103A); (0x103D, 0x103E); (0x1058, 0x1059); (0x105E, 0x1060); (0x1071, 0x1074); (0x1082, 0x1082);
   (0x1085, 0x1086); (0x108D, 0x108D); (0x109D, 0x109D); (0x10FC, 0x10FC); (0x135D, 0x135F); (0x1712, 0x1714);
   (0x1732, 0x1733); (0x1752, 0x1753); (0x1772, 0x1773); (0x17B4, 0x17B5); (0x17B7, 0x17BD); (0x17C6, 0x17C6);
   (0x17C9, 0x17D3); (0x17D7, 0x17D7); (0x17DD, 0x17DD); (0x180B, 0x180F); (0x1843, 0x1843); (0x1885, 0x1886);
   (0x18A9, 0x18A9); (0x1920, 0x1922); (0x1927, 0x1928); (0x1932, 0x1932); (0x1939, 0x193B); (0x1A17, 0x1A18);
   (0x1A1B, 0x1A1B); (0x1A56, 0x1A56); (0x1A58, 0x1A5E); (0x1A60, 0x1A60); (0x1A62, 0x1A62); (0x1A65, 0x1A6C);
   (0x1A73, 0x1A7C); (0x1A7F, 0x1A7F); (0x1AA7, 0x1AA7); (0x1AB0, 0x1ACE); (0x1B00, 0x1B03); (0x1B34, 0x1B34);
   (0x1B36, 0x1B3A); (0x1B3C, 0x1B3C); (0x1B42, 0x1B42); (0x1B6B, 0x1B73); (0x1B80, 0x1B81); (0x1BA2, 0x1BA5);
   (0x1BA8, 0x1BA9); (0x1BAB, 0x1BAD); (0x1BE6, 0x1BE6); (0x1BE8, 0x1BE9); (0x1BED, 0x1BED); (0x1BEF, 0x1BF1);
   (0x1C2C, 0x1C33); (0x1C36, 0x1C37); (0x1C78, 0x1C7D); (0x1CD0, 0x1CD2); (0x1CD4, 0x1CE0); (0x1CE2, 0x1CE8);
   (0x1CED, 0x1CED); (0x1CF4, 0x1CF4); (0x1CF8, 0x1CF9); (0x1D2C, 0x1D6A); (0x1D78, 0x1D78); (0x1D9B, 0x1DFF);
   (0x1FBD, 0x1FBD); (0x1FBF, 0x1FC1); (0x1FCD, 0x1FCF); (0x1FDD, 0x1FDF); (0x1FED, 0x1FEF); (0x1FFD, 0x1FFE);
   (0x200B, 0x200F); (0x2018, 0x2019); (0x2024, 0x2024); (0x2027, 0x2027); (0x202A, 0x202E); (0x2060, 0x2064);
   (0x2066, 0x206F); (0x2071, 0x2071); (0x207F, 0x207F); (0x2090, 0x209C); (0x20D0, 0x20F0); (0x2C7C, 0x2C7D);
   (0x2CEF, 0x2CF1); (0x2D6F, 0x2D6F); (0x2D7F, 0x2D7F); (0x2DE0, 0x2DFF); (0x2E2F, 0x2E2F); (0x3005, 0x3005);
   (0x302A, 0x302D); (0x3031, 0x3035); (0x303B, 0x303B); (0x3099, 0x309E); (0x30FC, 0x30FE); (0xA015, 0xA015);
   (0xA4F8, 0xA4FD); (0xA60C, 0xA60C); (0xA66F, 0xA672); (0xA674, 0xA67D); (0xA67F, 0xA67F); (0xA69C, 0xA69F);
   (0xA6F0, 0xA6F1); (0xA700, 0xA721); (0xA770, 0xA770); (0xA788, 0xA78A); (0xA7F2, 0xA7F4); (0xA7F8, 0xA7F9);
   (0xA802, 0xA802); (0xA806, 0xA806); (0xA80B, 0xA80B); (0xA825, 0xA826); (0xA82C, 0xA82C); (0xA8C4, 0xA8C5);
   (0xA8E0, 0xA8F1); (0xA8FF, 0xA8FF); (0xA926, 0xA92D); (0xA947, 0xA951); (0xA980, 0xA982); (0xA9B3, 0xA9B3);
   (0xA9B6, 0xA9B9); (0xA9BC, 0xA9BD); (0xA9CF, 0xA9CF); (0xA9E5, 0xA9E6); (0xAA29, 0xAA2E); (0xAA31, 0xAA32);
   (0xAA35, 0xAA36); (0xAA43, 0xAA43); (0xAA4C, 0xAA4C); (0xAA70, 0xAA70); (0xAA7C, 0xAA7C); (0xAAB0, 0xAAB0);
   (0xAAB2, 0xAAB4); (0xAAB7, 0xAAB8); (0xAABE, 0xAABF); (0xAAC1, 0xAAC1); (0xAADD, 0xAADD); (0xAAEC, 0xAAED);
   (0xAAF3, 0xAAF4); (0xAAF6, 0xAAF6); (0xAB5B, 0xAB5F); (0xAB69, 0xAB6B); (0xABE5, 0xABE5); (0xABE8, 0xABE8);
   (0xABED, 0xABED); (0xFB1E, 0xFB1E); (0xFBB2, 0xFBC2); (0xFE00, 0xFE0F); (0xFE13, 0xFE13); (0xFE20, 0xFE2F);
   (0xFE52, 0xFE52); (0xFE55, 0xFE55); (0xFEFF, 0xFEFF); (0xFF07, 0xFF07); (0xFF0E, 0xFF0E); (0xFF1A, 0xFF1A);
   (0xFF3E, 0xFF3E); (0xFF40, 0xFF40); (0xFF70, 0xFF70); (0xFF9E, 0xFF9F); (0xFFE3, 0xFFE3); (0xFFF9, 0xFFFB);
   (0x101FD, 0x101FD); (0x102E0, 0x102E0); (0x10376, 0x1037A); (0x10780, 0x10785); (0x10787, 0x107B0); (0x107B2, 0x107BA);
   (0x10A01, 0x10A03); (0x10A05, 0x10A06); (0x10A0C, 0x10A0F); (0x10A38, 0x10A3A); (0x10A3F, 0x10A3F); (0x10AE5, 0x10AE6);
   (0x10D24, 0x10D27); (0x10EAB, 0x10EAC); (0x10F46, 0x10F50); (0x10F82, 0x10F85); (0x11001, 0x11001); (0x11038, 0x11046);
   (0x11070, 0x11070); (0x11073, 0x11074); (0x1107F, 0x11081); (0x110B3, 0x110B6); (0x110B9, 0x110BA); (0x110BD, 0x110BD);
   (0x110C2, 0x110C2); (0x110CD, 0x110CD); (0x11100, 0x11102); (0x11127, 0x1112B); (0x1112D, 0x11134); (0x11173, 0x11173);
   (0x11180, 0x11181); (0x111B6, 0x111BE); (0x111C9, 0x111CC); (0x111CF, 0x111CF); (0x1122F, 0x11231); (0x11234, 0x11234);
   (0x11236, 0x11237); (0x1123E, 0x1123E); (0x112DF, 0x112DF); (0x112E3, 0x112EA); (0x11300, 0x11301); (0x1133B, 0x1133C);
   (0x11340, 0x11340); (0x11366, 0x1136C); (0x11370, 0x11374); (0x11438, 0x1143F); (0x11442, 0x11444); (0x11446, 0x11446);
   (0x1145E, 0x1145E); (0x114B3, 0x114B8); (0x114BA, 0x114BA); (0x114BF, 0x114C0); (0x114C2, 0x114C3); (0x115B2, 0x115B5);
   (0x115BC, 0x115BD); (0x115BF, 0x115C0); (0x115DC, 0x115DD); (0x11633, 0x1163A); (0x1163D, 0x1163D); (0x1163F, 0x11640);
   (0x116AB, 0x116AB); (0x116AD, 0x116AD); (0x116B0, 0x116B5); (0x116B7, 0x116B7); (0x1171D, 0x1171F); (0x11722, 0x11725);
   (0x11727, 0x1172B); (0x1182F, 0x11837); (0x11839, 0x1183A); (0x1193B, 0x1193C); (0x1193E, 0x1193E); (0x11943, 0x11943);
   (0x119D4, 0x119D7); (0x119DA, 0x119DB); (0x119E0, 0x119E0); (0x11A01, 0x11A0A); (0x11A33, 0x11A38); (0x11A3B, 0x11A3E);
   (0x11A47, 0x11A47); (0x11A51, 0x11A56); (0x11A59, 0x11A5B); (0x11A8A, 0x11A96); (0x11A98, 0x11A99); (0x11C30, 0x11C36);
   (0x11C38, 0x11C3D); (0x11C3F, 0x11C3F); (0x11C92, 0x11CA7); (0x11CAA, 0x11CB0); (0x11CB2, 0x11CB3); (0x11CB5, 0x11CB6);
   (0x11D31, 0x11D36); (0x11D3A, 0x11D3A); (0x11D3C, 0x11D3D); (0x11D3F, 0x11D45); (0x11D47, 0x11D47); (0x11D90, 0x11D91);
   (0x11D95, 0x11D95); (0x11D97, 0x11D97); (0x11EF3, 0x11EF4); (0x13430, 0x13438); (0x16AF0, 0x16AF4); (0x16B30, 0x16B36);
   (0x16B40, 0x16B43); (0x16F4F, 0x16F4F); (0x16F8F, 0x16F9F); (0x16FE0, 0x16FE1); (0x16FE3, 0x16FE4); (0x1AFF0, 0x1AFF3);
   (0x1AFF5, 0x1AFFB); (0x1AFFD, 0x1AFFE); (0x1BC9D, 0x1BC9E); (0x1BCA0, 0x1BCA3); (0x1CF00, 0x1CF2D); (0x1CF30, 0x1CF46);
   (0x1D167, 0x1D169); (0x1D173, 0x1D182); (0x1D185, 0x1D18B); (0x1D1AA, 0x1D1AD); (0x1D242, 0x1D244); (0x1DA00, 0x1DA36);
   (0x1DA3B, 0x1DA6C); (0x1DA75, 0x1DA75); (0x1DA84, 0x1DA84); (0x1DA9B, 0x1DA9F); (0x1DAA1, 0x1DAAF); (0x1E000, 0x1E006);
   (0x1E008, 0x1E018); (0x1E01B, 0x1E021); (0x1E023, 0x1E024); (0x1E026, 0x1E02A); (0x1E130, 0x1E13D); (0x1E2AE, 0x1E2AE);
   (0x1E2EC, 0x1E2EF); (0x1E8D0, 0x1E8D6); (0x1E944, 0x1E94B); (0x1F3FB, 0x1F3FF); (0xE0001, 0xE0001); (0xE0020, 0xE007F);
   (0xE0100, 0xE01EF)
  ]%N.

Definition in_run (c : N) (r : N * N * N * N) : bool :=
  match r with
  | (first, last, step, _) =>
      (N.leb first c && N.leb c last && N.eqb ((c - first) mod step) 0)%bool
  end.

(** The lower-case mapping of a code point that maps to one code
    point (itself when no run holds it). *)
Definition to_lower1 (c : N) : N :=
  match find (in_run c) lower_runs with
  | Some (first, _, _, image) => (image + (c - first))%N
  | None => c
  end.

Definition CAPITAL_SIGMA : N := 0x3A3%N.
Definition CAPITAL_I_WITH_DOT : N := 0x130%N.

(** [_PyUnicode_ToLowerFull]: capital I with dot above is the one code
    point whose lower-case mapping has two code points. *)
Definition to_lower_full (c : N) : ustr :=
  if N.eqb c CAPITAL_I_WITH_DOT then [0x69; 0x307]%N else [to_lower1 c].

Definition in_ranges (c : N) (l : list (N * N)) : bool :=
  existsb (fun r => (N.leb (fst r) c && N.leb c (snd r))%bool) l.

Definition is_cased (c : N) : bool := in_ranges c cased_ranges.

Definition is_case_ignorable (c : N) : bool := in_ranges c case_ignorable_ranges.

Fixpoint skip_case_ignorable (s : ustr) : ustr :=
  match s with
  | [] => []
  | c :: rest => if is_case_ignorable c then skip_case_ignorable rest else s
  end.

(** [handle_capital_sigma]: the sigma is final when the nearest code
    point before it that is not case-ignorable is cased and the
    nearest after it that is not case-ignorable is absent or not
    cased.  [before] lists the preceding code points, nearest first. *)
Definition final_sigma (before after : ustr) : bool :=
  match skip_case_ignorable before with
  | [] => false
  | c :: _ =>
      (is_cased c &&
       match skip_case_ignorable after with
       | [] => true
       | c' :: _ => negb (is_cased c')
       end)%bool
  end.

Fixpoint lower_from (before s : ustr) : ustr :=
  match s with
  | [] => []
  | c :: rest =>
      ((if N.eqb c CAPITAL_SIGMA
        then [if final_sigma before rest then 0x3C2 else 0x3C3]%N
        else to_lower_full c)
       ++ lower_from (c :: before) rest)%list
  end.

(** [s.lower()] *)
Definition lower (s : ustr) : ustr := lower_from [] s.

Fixpoint starts_with (p s : ustr) : bool :=
  match p, s with
  | [], _ => true
  | a :: p', b :: s' => (N.eqb a b && starts_with p' s')%bool
  | _ :: _, [] => false
  end.

(** [needle in hay] *)
Fixpoint contains (needle hay : ustr) : bool :=
  (starts_with needle hay ||
   match hay with
   | [] => false
   | _ :: hay' => contains needle hay'
   end)%bool.

(** [sep.join(parts)] *)
Fixpoint join (sep : ustr) (parts : list ustr) : ustr :=
  match parts with
  | [] => []
  | [p] => p
  | p :: rest => (p ++ sep ++ join sep rest)%list
  end.

(** A record as [search] reads it: the text each field prints as. *)
Record record : Type := mkRecord {
  name : ustr;
  phones : list ustr;
  email : option ustr;
  birthday : option ustr;
  address : option ustr
}.

Definition format_opt (x : option ustr) : ustr :=
  match x with
  | None => of_string "None"
  | Some s => s
  end.

(** The text [search] builds for a record. *)
Definition str_val_record (r : record) : ustr :=
  (name r ++ join (of_string " ") (phones r)
   ++ format_opt (email r) ++ format_opt (birthday r) ++ format_opt (address r))%list.

Definition AddressBook : Type := list (ustr * record).

Definition values (self : AddressBook) : list record := map snd self.

Fixpoint search_loop (search_word : ustr) (search_list rs : list record) : list record :=
  match rs with
  | [] => search_list
  | r :: rest =>
      if contains (lower search_word) (lower (str_val_record r))
      then search_loop search_word (search_list ++ [r])%list rest
      else search_loop search_word search_list rest
  end.

(** [AddressBook.search] *)
Definition search (self : AddressBook) (search_word : ustr) : list record :=
  search_loop search_word [] (values self).

(** [term] occurs in [text] up to letter case: some substring of
    [text] has the same lowering as [term]. *)
Definition ci_substring (term text : ustr) : Prop :=
  exists pre mid post, text = (pre ++ mid ++ post)%list /\ lower mid = lower term.

(** No capital sigma and no capital I with dot above. *)
Definition plain_case (s : ustr) : bool :=
  forallb (fun c => (negb (N.eqb c CAPITAL_SIGMA) && negb (N.eqb c CAPITAL_I_WITH_DOT))%bool) s.





End Unicode.

(** ** Vocabulary of the statements *)

(** A run of decimal digits: what [int] reads as a non-negative
    integer. *)
Definition is_nonneg_int_str (s : string) : bool :=
  (negb (str_is_empty s) && str_all is_decimal s)%bool.

(** [term] occurs in [text] up to letter case: some substring of
    [text] has the same lowering as [term]. *)
Definition ci_substring (term text : string) : Prop :=
  exists pre mid post, text = pre ++ mid ++ post /\ lower mid = lower term.

(** The test [search] applies to each record. *)
Definition search_test (search_word : string) (r : record) : bool :=
  contains (lower search_word) (lower (str_val_record r)).

(** Batching by size alone: close the batch when it holds [q] records
    or when the input ends. *)
Fixpoint chunk_loop (q : nat) (cur rs : list record) : list (list record) :=
  match rs with
  | [] => []
  | r :: rest =>
      let cur' := (cur ++ [r])%list in
      if (Nat.eqb (List.length cur') q || match rest with [] => true | _ => false end)%bool
      then cur' :: chunk_loop q [] rest
      else chunk_loop q cur' rest
  end.

(** Every batch but the last holds exactly [q] records and the last
    holds between 1 and [q]. *)
Fixpoint batches_shape (q : nat) (bs : list (list record)) : Prop :=
  match bs with
  | [] => True
  | b :: rest =>
      match rest with
      | [] => (1 <= List.length b <= q)%nat
      | _ :: _ => List.length b = q /\ batches_shape q rest
      end
  end.

(** The strings a pattern denotes. *)
Fixpoint rep_lang (L : string -> Prop) (n : nat) (u : string) : Prop :=
  match n with
  | O => u = ""
  | S n' => exists u1 u2, u = u1 ++ u2 /\ L u1 /\ rep_lang L n' u2
  end.

Fixpoint lang (r : regex) (u : string) : Prop :=
  match r with
  | Lit c => u = String c ""
  | Class p => exists c, u = String c "" /\ p c = true
  | Seq a b => exists u1 u2, u = u1 ++ u2 /\ lang a u1 /\ lang b u2
  | Alt a b => lang a u \/ lang b u
  | Rep n r' => rep_lang (lang r') n u
  end.

(** The national part of an accepted phone: nine decimal digits. *)
Definition is_nine_digits (d : string) : Prop :=
  String.length d = 9%nat /\ str_all is_decimal d = true.

(** Sample data for the statements below. *)
Definition five_records : AddressBook :=
  map (fun nm => (nm, mkRecord (mkField nm) [] None None None))
      ["Anna"; "Boris"; "Clara"; "Denys"; "Emma"].

Definition anna : record :=
  mkRecord (mkField "Anna") [mkField "+380931112233"] None
           (Some (mkField "1990-03-05")) None.

Definition anna_again : record :=
  mkRecord (mkField "Anna") [] None None None.

Definition boris_no_birthday : record :=
  mkRecord (mkField "Boris") [mkField "+380991234567"] None None None.

Definition clara_may : record :=
  mkRecord (mkField "Clara") [] None (Some (mkField "2000-05-10")) None.

Definition emma_january : record :=
  mkRecord (mkField "Emma") [] None (Some (mkField "1995-01-02")) None.

Definition denys_leap_day : record :=
  mkRecord (mkField "Denys") [] None (Some (mkField "2000-02-29")) None.

(** The strings an extended pattern denotes. *)
Fixpoint lang_ext (r : regex_ext) (u : string) : Prop :=
  match r with
  | Base r0 => lang r0 u
  | Many min p => (min <= String.length u)%nat /\ str_all p u = true
  | SeqE a b => exists u1 u2, u = u1 ++ u2 /\ lang_ext a u1 /\ lang_ext b u2
  end.

(** The keys of a book are pairwise distinct and each is the name of
    the record stored under it. *)
Definition keys (self : AddressBook) : list string := map fst self.

Definition keyed_by_name (self : AddressBook) : Prop :=
  Forall (fun kv => fst kv = value (name (snd kv))) self.

(** What [to_dict] stores for a record. *)
Definition record_fields (r : record) : record_dict :=
  mkRecordDict (map Field_str (phones r))
               (option_map Field_str (email r))
               (option_map Field_str (birthday r))
               (option_map Field_str (address r)).

(** The birthday of a record moved to year [y], when the record has a
    birthday, it parses and the date exists in that year. *)
Definition projected_birthday (y : Z) (r : record) : option date :=
  match birthday r with
  | None => None
  | Some b =>
      match get_date b with
      | Raise _ => None
      | Ok d => match replace_year d y with Ok d' => Some d' | Raise _ => None end
      end
  end.

(** The test of the birthday window on a record. *)
Definition in_window (current_date last_date : date) (r : record) : bool :=
  match projected_birthday (year current_date) r with
  | None => false
  | Some b => (date_leb current_date b && date_leb b last_date)%bool
  end.

(** A date of the calendar. *)
Definition valid_date (d : date) : Prop :=
  date_new (year d) (month d) (day d) = Ok d.

(** The month and day of [d] come before today's in the year. *)
Definition birthday_passed (today d : date) : bool :=
  ((month d <? month today) || ((month d =? month today) && (day d <? day today)))%bool.

Definition is_feb29 (d : date) : bool := ((month d =? 2) && (day d =? 29))%bool.

(** The month and day of [d] exist neither in the current year, when
    they are still to come, nor in the next, when they have passed. *)
Definition birthday_unplaceable (today d : date) : bool :=
  ((is_feb29 d && (negb (is_leap (year today)) || birthday_passed today d))
   || (birthday_passed today d && (year today =? MAXYEAR)))%bool.

(** The year of the next occurrence of the month and day of [d]. *)
Definition next_birthday_year (today d : date) : Z :=
  if birthday_passed today d then year today + 1 else year today.

(** A record of the model below U+0100 as [Unicode.search] reads it. *)
Definition widen_field {c : field_class} (f : Field c) : Unicode.ustr :=
  Unicode.of_string (Field_str f).

Definition widen_record (r : record) : Unicode.record :=
  Unicode.mkRecord (widen_field (name r)) (map widen_field (phones r))
                   (option_map widen_field (email r))
                   (option_map widen_field (birthday r))
                   (option_map widen_field (address r)).

Definition widen_book (self : AddressBook) : Unicode.AddressBook :=
  map (fun kv => (Unicode.of_string (fst kv), widen_record (snd kv))) self.

(** * Properties *)

(** ** Sanity checks of the calendar model *)

Example ord2ymd_examples :
  ymd2ord 2023 3 1 = 738580 /\
  ord2ymd (ymd2ord 2023 3 1) = mkDate 2023 3 1 /\
  ord2ymd (ymd2ord 2024 2 29) = mkDate 2024 2 29 /\
  ord2ymd (ymd2ord 2023 12 31) = mkDate 2023 12 31 /\
  ord2ymd MAXORDINAL = mkDate 9999 12 31 /\
  ord2ymd 1 = mkDate 1 1 1.
Proof. repeat split; reflexivity. Qed.

(** From 1999-01-01 to 2030-12-31, [ord2ymd] yields a date of the
    calendar whose ordinal is the one given. *)
Example ord2ymd_inverts_toordinal :
  forallb (fun o => match ord2ymd o with
                    | mkDate y m d =>
                        match date_new y m d with
                        | Ok d' => toordinal d' =? o
                        | Raise _ => false
                        end
                    end)
          (map (fun i => 729755 + Z.of_nat i) (seq 0 (Z.to_nat 11688))) = true.
Proof. vm_compute. reflexivity. Qed.

Example isoformat_examples :
  isoformat (mkDate 2023 2 28) = "2023-02-28" /\
  fromisoformat "2000-02-29" = Ok (mkDate 2000 2 29) /\
  fromisoformat "2001-02-29" = Raise ValueError /\
  fromisoformat "2000-2-29" = Raise ValueError.
Proof. repeat split; reflexivity. Qed.

(** ** Attribute lookup on [Record] *)

Lemma Record_has_no_name_helper (instance : list string) :
  incl instance Record_instance_attrs ->
  Record_getattr instance "_name" = Raise (AttributeError "_name").
Proof.
  intros Hincl. unfold Record_getattr.
  destruct (mem_str "_name" (instance ++ Record_class_body ++ object_attrs)%list) eqn:E;
    [|reflexivity].
  exfalso. unfold mem_str in E. apply existsb_exists in E.
  destruct E as [x [Hin Heq]]. apply String.eqb_eq in Heq. subst x.
  apply in_app_or in Hin. destruct Hin as [Hin | Hin].
  - apply Hincl in Hin. simpl in Hin.
    repeat (destruct Hin as [Hin | Hin]; [discriminate Hin|]). exact Hin.
  - simpl in Hin.
    repeat (destruct Hin as [Hin | Hin]; [discriminate Hin|]). exact Hin.
Qed.

Section HelperLemmas.

Variable _name : arg CName -> result Name.
Variable _phone : arg CPhone -> result Phone.
Variable _email : arg CEmail -> result Email.
Variable _birthday : arg CBirthday -> result Birthday.
Variable _address : arg CAddress -> result Address.

Lemma Record_init_raises a_name a_phones a_email a_birthday a_address :
  Record_init _name _phone _email _birthday _address
    a_name a_phones a_email a_birthday a_address
  = Raise (AttributeError "_name").
Proof. reflexivity. Qed.

Lemma call_phone_helper_raises (x : arg CPhone) :
  call_attr Record_instance_attrs "_phone" _phone x = Raise (AttributeError "_phone").
Proof. reflexivity. Qed.

Lemma remove_phone_raises self phone :
  remove_phone _phone self phone = Raise (AttributeError "_phone").
Proof. reflexivity. Qed.

Lemma add_phone_raises self phone :
  add_phone _phone self phone =
  Raise (if phone_in phone (phones self) then ValueError else AttributeError "_phone").
Proof. unfold add_phone. destruct (phone_in phone (phones self)); reflexivity. Qed.

Lemma change_field_raises self e b a :
  change_email _email self e = Raise (AttributeError "_email") /\
  change_birthday _birthday self b = Raise (AttributeError "_birthday") /\
  change_address _address self a = Raise (AttributeError "_address").
Proof. repeat split. Qed.

End HelperLemmas.

(** ** Fields *)

(** ** Patterns: the matcher decides the language *)

Lemma str_app_assoc (a b c : string) : (a ++ b) ++ c = a ++ (b ++ c).
Proof. induction a as [|x a IH]; simpl; [reflexivity | rewrite IH; reflexivity]. Qed.

Lemma str_app_nil_r (a : string) : a ++ "" = a.
Proof. induction a as [|x a IH]; simpl; [reflexivity | rewrite IH; reflexivity]. Qed.

Lemma match_k_spec (r : regex) :
  forall (s : string) (k : string -> bool),
    match_k r s k = true <-> exists u v, s = u ++ v /\ lang r u /\ k v = true.
Proof.
  induction r as [c | p | a IHa b IHb | a IHa b IHb | n r IH]; intros s k.
  - cbn [match_k lang]. destruct s as [|c' s'].
    + split; [discriminate|]. intros [u [v [E [Hu _]]]]. subst u. discriminate E.
    + rewrite andb_true_iff, Ascii.eqb_eq. split.
      * intros [Hc Hk]. subst c'. exists (String c ""), s'. repeat split. exact Hk.
      * intros [u [v [E [Hu Hk]]]]. subst u. injection E as Hc Hs. subst. split; auto.
  - cbn [match_k lang]. destruct s as [|c' s'].
    + split; [discriminate|]. intros [u [v [E [[c [Hu _]] _]]]]. subst u. discriminate E.
    + rewrite andb_true_iff. split.
      * intros [Hc Hk]. exists (String c' ""), s'. repeat split; [|exact Hk].
        exists c'. split; [reflexivity | exact Hc].
      * intros [u [v [E [[c [Hu Hp]] Hk]]]]. subst u. injection E as Hc Hs. subst. split; auto.
  - cbn [match_k lang]. rewrite IHa. split.
    + intros [u1 [v1 [E [Ha Hb]]]]. apply IHb in Hb.
      destruct Hb as [u2 [v2 [E2 [Hb Hk]]]]. subst.
      exists (u1 ++ u2), v2. rewrite str_app_assoc. repeat split; [|exact Hk].
      exists u1, u2. repeat split; assumption.
    + intros [u [v [E [[u1 [u2 [Eu [Ha Hb]]]] Hk]]]]. subst.
      exists u1, (u2 ++ v). rewrite str_app_assoc. repeat split; [exact Ha|].
      apply IHb. exists u2, v. repeat split; assumption.
  - cbn [match_k lang]. rewrite orb_true_iff, IHa, IHb. split.
    + intros [[u [v [E [H Hk]]]] | [u [v [E [H Hk]]]]]; exists u, v; auto.
    + intros [u [v [E [[H | H] Hk]]]]; [left | right]; exists u, v; auto.
  - cbn [match_k lang]. revert s. induction n as [|n IHn]; intros s.
    + cbn [rep_lang]. split.
      * intros Hk. exists "", s. repeat split. exact Hk.
      * intros [u [v [E [Hu Hk]]]]. subst. exact Hk.
    + cbn [rep_lang]. rewrite IH. split.
      * intros [u1 [v1 [E [Hr Hrest]]]]. apply IHn in Hrest.
        destruct Hrest as [u2 [v2 [E2 [Hrep Hk]]]]. subst.
        exists (u1 ++ u2), v2. rewrite str_app_assoc. repeat split; [|exact Hk].
        exists u1, u2. repeat split; assumption.
      * intros [u [v [E [[u1 [u2 [Eu [Hr Hrep]]]] Hk]]]]. subst.
        exists u1, (u2 ++ v). rewrite str_app_assoc. repeat split; [exact Hr|].
        apply IHn. exists u2, v. repeat split; assumption.
Qed.

Lemma fullmatch_spec (r : regex) (s : string) : fullmatch r s = true <-> lang r s.
Proof.
  unfold fullmatch. rewrite match_k_spec. split.
  - intros [u [v [E [H Hk]]]]. destruct v; [|discriminate Hk].
    rewrite str_app_nil_r in E. subst. exact H.
  - intros H. exists s, "". rewrite str_app_nil_r. repeat split. exact H.
Qed.

Lemma lang_lit_str (p : string) (tail : regex) (u : string) :
  lang (lit_str p tail) u <-> exists t, u = p ++ t /\ lang tail t.
Proof.
  revert u. induction p as [|c p IH]; intros u; cbn [lit_str lang].
  - split; [intros H; exists u; split; [reflexivity | exact H]|].
    intros [t [E H]]. subst. exact H.
  - split.
    + intros [u1 [u2 [E [Hc H]]]]. apply IH in H. destruct H as [t [Et Ht]].
      subst. exists t. split; [reflexivity | exact Ht].
    + intros [t [E Ht]]. exists (String c ""), (p ++ t). subst.
      repeat split. apply IH. exists t. split; [reflexivity | exact Ht].
Qed.

Lemma lang_rep_class (p : ascii -> bool) (n : nat) (u : string) :
  lang (Rep n (Class p)) u <-> String.length u = n /\ str_all p u = true.
Proof.
  cbn [lang]. revert u. induction n as [|n IH]; intros u; cbn [rep_lang].
  - split.
    + intros E. subst. split; reflexivity.
    + intros [Hl _]. destruct u; [reflexivity | discriminate Hl].
  - split.
    + intros [u1 [u2 [E [[c [Ec Hc]] H]]]]. apply IH in H. destruct H as [Hl Ha].
      subst. cbn. rewrite Hc, Ha. split; reflexivity.
    + intros [Hl Ha]. destruct u as [|c u]; [discriminate Hl|].
      cbn in Hl, Ha. apply andb_true_iff in Ha. destruct Ha as [Hc Ha].
      exists (String c ""), u. repeat split.
      * exists c. split; [reflexivity | exact Hc].
      * apply IH. split; [lia | exact Ha].
Qed.

(** The cleaned strings [phone_pattern] accepts. *)
Lemma phone_pattern_spec (v : string) :
  fullmatch phone_pattern v = true <->
  exists d, is_nine_digits d /\
            (v = "+380" ++ d \/ v = "380" ++ d \/ v = "80" ++ d \/ v = "0" ++ d).
Proof.
  rewrite fullmatch_spec. unfold phone_pattern, nine_digits, is_nine_digits.
  cbn [lang]. rewrite !lang_lit_str. split.
  - intros [H | [H | [H | H]]]; destruct H as [d [E Hd]];
      apply lang_rep_class in Hd; exists d; (split; [exact Hd|]); auto.
  - intros [d [Hd [E | [E | [E | E]]]]]; apply lang_rep_class in Hd;
      [left | right; left | right; right; left | right; right; right];
      exists d; split; assumption.
Qed.

Lemma str_length_app (a b : string) :
  String.length (a ++ b) = (String.length a + String.length b)%nat.
Proof. induction a as [|x a IH]; simpl; [reflexivity | rewrite IH; reflexivity]. Qed.

Lemma str_drop_app (a b : string) : str_drop (String.length a) (a ++ b) = b.
Proof. induction a as [|x a IH]; simpl; [destruct b; reflexivity | exact IH]. Qed.

Lemma last_chars_app (a d : string) :
  last_chars (String.length d) (a ++ d) = d.
Proof.
  unfold last_chars. rewrite str_length_app.
  replace (String.length a + String.length d - String.length d)%nat
    with (String.length a) by lia.
  apply str_drop_app.
Qed.

(** What [Phone._validate] accepts and what it returns: the cleaned
    string is one of the four prefixes followed by nine digits, and the
    value returned is +380 followed by those digits. *)
Lemma Phone_validate_spec (raw out : string) :
  Phone_validate raw = Ok out <->
  exists d, is_nine_digits d /\
            (strip_separators raw = "+380" ++ d \/ strip_separators raw = "380" ++ d \/
             strip_separators raw = "80" ++ d \/ strip_separators raw = "0" ++ d) /\
            out = "+380" ++ d.
Proof.
  unfold Phone_validate.
  destruct (fullmatch phone_pattern (strip_separators raw)) eqn:E; cbn [negb].
  - apply phone_pattern_spec in E. destruct E as [d [Hd Hforms]].
    assert (Hlast : last_chars 9 (strip_separators raw) = d).
    { destruct Hd as [Hl _]. rewrite <- Hl.
      destruct Hforms as [H | [H | [H | H]]]; rewrite H; apply last_chars_app. }
    rewrite Hlast. split.
    + intros H. injection H as H. exists d. destruct Hd as [Hl Ha].
      split; [split; assumption|]. split; [exact Hforms | symmetry; exact H].

    + intros [d' [Hd' [Hforms' Hout]]]. subst out. f_equal. f_equal.
      destruct Hd' as [Hl' _]. rewrite <- Hlast. rewrite <- Hl'.
      destruct Hforms' as [H | [H | [H | H]]]; rewrite H; apply last_chars_app.
  - split; [discriminate|]. intros [d [Hd [Hforms _]]].
    assert (Hm : fullmatch phone_pattern (strip_separators raw) = true)
      by (apply phone_pattern_spec; exists d; split; assumption).
    congruence.
Qed.

(** Every other raw string is rejected with [ValueError]. *)
Lemma Phone_validate_rejects (raw : string) :
  (forall out, Phone_validate raw <> Ok out) -> Phone_validate raw = Raise ValueError.
Proof.
  intros H. unfold Phone_validate in *.
  destruct (fullmatch phone_pattern (strip_separators raw)); cbn [negb] in *;
    [exfalso; eapply H; reflexivity | reflexivity].
Qed.

Lemma Phone_new_unfold (raw : string) :
  Phone_new raw =
  match Phone_validate raw with
  | Ok _ => Ok (mkField raw)
  | Raise e => Raise e
  end.
Proof.
  unfold Phone_new, Field_new. simpl. destruct (Phone_validate raw); reflexivity.
Qed.

(** C1 (the code departs from the claim): a raw phone in an accepted
    form is accepted, but the field stores the raw string as given: the
    setter drops the normalised number [Phone._validate] returns.  For
    the raw string 0931112233 the validator returns +380931112233 and
    the stored value is 0931112233; with separators, the stored value
    keeps them. *)
Theorem C1_phone_stores_raw_string :
  (forall raw,
     Phone_new raw = match Phone_validate raw with
                     | Ok _ => Ok (mkField raw)
                     | Raise e => Raise e
                     end) /\
  Phone_validate "0931112233" = Ok "+380931112233" /\
  option_map Field_str (match Phone_new "0931112233" with Ok p => Some p | Raise _ => None end)
    = Some "0931112233" /\
  Phone_validate "(093) 111-22-33" = Ok "+380931112233" /\
  Phone_new "(093) 111-22-33" = Ok (mkField "(093) 111-22-33").
Proof.
  split; [exact Phone_new_unfold|repeat split].
Qed.

(** C3 (the code departs from the claim): [Name] binds its check as
    [_Name__validate], so [_validate] stays abstract and constructing a
    [Name] raises [TypeError] for every string, whatever its length;
    the length check itself, never reached, accepts exactly the strings
    longer than two characters. *)
Theorem C3_name_cannot_be_constructed :
  (forall v, Name_new v = Raise TypeError) /\
  abstractmethods CName = ["_validate"] /\
  Name_new "Alice" = Raise TypeError /\
  Name__validate "Alice" = Ok tt /\
  Name__validate "Al" = Raise ValueError.
Proof. repeat split. Qed.

(** ** Record *)

(** C2: whatever the arguments, and whatever the five converters would
    do if they existed, [Record.__init__] raises [AttributeError] at
    its first statement, the lookup of [self._name]; none of [_name],
    [_phone], [_email], [_birthday], [_address] is bound in the class
    body or inherited, so the lookup fails on a full instance too. *)
Theorem C2_record_constructor_always_raises
    (_name : arg CName -> result Name) (_phone : arg CPhone -> result Phone)
    (_email : arg CEmail -> result Email) (_birthday : arg CBirthday -> result Birthday)
    (_address : arg CAddress -> result Address)
    (a_name : arg CName) (a_phones : list (arg CPhone)) (a_email : option (arg CEmail))
    (a_birthday : option (arg CBirthday)) (a_address : option (arg CAddress)) :
  Record_init _name _phone _email _birthday _address
    a_name a_phones a_email a_birthday a_address = Raise (AttributeError "_name")
  /\ Forall (fun h => mem_str h (Record_class_body ++ object_attrs)%list = false
                      /\ Record_getattr Record_instance_attrs h = Raise (AttributeError h))
            ["_name"; "_phone"; "_email"; "_birthday"; "_address"].
Proof.
  split; [reflexivity|].
  repeat constructor.
Qed.

(** C8 (the code departs from the claim): [change_phone] starts by
    calling [self._phone], which [Record] does not have, so it raises
    [AttributeError] for every record and every pair of phones: it
    neither replaces the old phone nor reports a missing or duplicate
    one. *)
Theorem C8_change_phone_always_raises
    (_phone : arg CPhone -> result Phone) (self : record) (old_phone new_phone : arg CPhone) :
  change_phone _phone self old_phone new_phone = Raise (AttributeError "_phone").
Proof. reflexivity. Qed.

(** A birthday on 29 February, seen from any day of a common year:
    the year cannot be replaced, and the handler fails on the [Record]
    constructor. *)
Lemma days_to_birthday_feb29_common_year
    (_name : arg CName -> result Name) (_phone : arg CPhone -> result Phone)
    (_email : arg CEmail -> result Email) (_birthday : arg CBirthday -> result Birthday)
    (_address : arg CAddress -> result Address)
    (depth : nat) (today : date) (self : record) :
  birthday self = Some (mkField "2000-02-29") ->
  MINYEAR <= year today <= MAXYEAR ->
  is_leap (year today) = false ->
  days_to_birthday _name _phone _email _birthday _address (S depth) today self
  = Raise (AttributeError "_name").
Proof.
  intros Hb Hyear Hleap. cbn [days_to_birthday]. rewrite Hb.
  assert (Hget : get_date (mkField (c := CBirthday) "2000-02-29") = Ok (mkDate 2000 2 29))
    by reflexivity.
  rewrite Hget. cbn [bind].
  assert (Hrep : replace_year (mkDate 2000 2 29) (year today) = Raise ValueError).
  { unfold replace_year, date_new. cbn [month day].
    destruct (Z.leb_spec MINYEAR (year today)); [|lia].
    destruct (Z.leb_spec (year today) MAXYEAR); [|lia].
    cbn. unfold days_in_month. cbn. rewrite Hleap. reflexivity. }
  rewrite Hrep. cbn [bind try_except_ValueError exn_is_ValueError].
  assert (Hfeb : replace_month_day today 2 28 = Ok (mkDate (year today) 2 28)).
  { unfold replace_month_day, date_new.
    destruct (Z.leb_spec MINYEAR (year today)); [|lia].
    destruct (Z.leb_spec (year today) MAXYEAR); [|lia].
    cbn. unfold days_in_month. cbn. destruct (is_leap (year today)); reflexivity. }
  rewrite Hfeb. reflexivity.
Qed.

(** C4 (the code departs from the claim): for a birthday of 2000-02-29
    and today 2023-03-01, replacing the year raises [ValueError], the
    handler builds a [Record], and that constructor raises
    [AttributeError]; the call raises instead of returning a count. *)
Theorem C4_feb29_in_common_year_raises
    (_name : arg CName -> result Name) (_phone : arg CPhone -> result Phone)
    (_email : arg CEmail -> result Email) (_birthday : arg CBirthday -> result Birthday)
    (_address : arg CAddress -> result Address)
    (depth : nat) (nm : Name) (ps : list Phone) (e : option Email) (a : option Address) :
  days_to_birthday _name _phone _email _birthday _address (S depth)
    (mkDate 2023 3 1) (mkRecord nm ps e (Some (mkField "2000-02-29")) a)
  = Raise (AttributeError "_name").
Proof. reflexivity. Qed.

(** ** AddressBook: keys *)

Lemma dict_get_set_same {V : Type} (d : dict V) (key : string) (v : V) :
  dict_mem d key = false -> dict_get (dict_set d key v) key = Some v.
Proof.
  unfold dict_mem. induction d as [|[k w] rest IH]; simpl; intros H.
  - rewrite String.eqb_refl. reflexivity.
  - destruct (String.eqb k key) eqn:E; simpl.
    + discriminate H.
    + rewrite E. apply IH. exact H.
Qed.

Lemma dict_values_set_new {V : Type} (d : dict V) (key : string) (v : V) :
  dict_mem d key = false -> dict_set d key v = (d ++ [(key, v)])%list.
Proof.
  unfold dict_mem. induction d as [|[k w] rest IH]; simpl; intros H; [reflexivity|].
  destruct (String.eqb k key) eqn:E; [discriminate H|].
  f_equal. apply IH. exact H.
Qed.

(** Adding a record under a fresh name succeeds and puts it last. *)
Lemma add_record_fresh (self : AddressBook) (r : record) :
  dict_mem self (value (name r)) = false ->
  add_record self r = ((self ++ [(value (name r), r)])%list, Ok tt).
Proof.
  intros H. unfold add_record, setitem. rewrite H.
  rewrite dict_values_set_new by exact H. reflexivity.
Qed.

(** C5: when the key of the record's name is already in the book,
    [add_record] raises [KeyError] and returns the book as it was, so
    the record stored under that key is the one stored before. *)
Theorem C5_add_record_duplicate_key (self : AddressBook) (r : record) :
  dict_mem self (value (name r)) = true ->
  add_record self r = (self, Raise KeyError) /\
  dict_get (fst (add_record self r)) (value (name r)) = dict_get self (value (name r)).
Proof.
  intros H. unfold add_record, setitem. rewrite H. split; reflexivity.
Qed.

(** Two records of the same name in a row: the first is stored, the
    second is refused and the first stays. *)
Lemma add_record_twice (self : AddressBook) (r1 r2 : record) :
  dict_mem self (value (name r1)) = false ->
  value (name r2) = value (name r1) ->
  let (book1, out1) := add_record self r1 in
  out1 = Ok tt /\
  add_record book1 r2 = (book1, Raise KeyError) /\
  getitem book1 (value (name r1)) = Ok r1.
Proof.
  intros Hfresh Hsame. unfold add_record, setitem. rewrite Hfresh, Hsame.
  assert (Hget : dict_get (dict_set self (value (name r1)) r1) (value (name r1)) = Some r1)
    by (apply dict_get_set_same; exact Hfresh).
  split; [reflexivity|]. unfold dict_mem, getitem. rewrite Hget. split; reflexivity.
Qed.

(** C9 (the code departs from the claim): [from_dict] rebuilds each
    entry with the [Record] constructor, which always raises, so
    feeding it the [to_dict] of any record, a name-only one included,
    raises [AttributeError] and leaves the book as it was. *)
Theorem C9_from_dict_of_to_dict_raises
    (_name : arg CName -> result Name) (_phone : arg CPhone -> result Phone)
    (_email : arg CEmail -> result Email) (_birthday : arg CBirthday -> result Birthday)
    (_address : arg CAddress -> result Address)
    (self : AddressBook) (r : record) :
  Record_to_dict (mkRecord (mkField "Alice") [] None None None)
    = [("Alice", mkRecordDict [] None None None)] /\
  from_dict _name _phone _email _birthday _address self (Record_to_dict r)
    = (self, Raise (AttributeError "_name")).
Proof.
  split; [reflexivity|].
  unfold Record_to_dict. cbn [from_dict].
  rewrite Record_init_raises. reflexivity.
Qed.

(** ** AddressBook: the birthday window *)

Lemma decimal_isdigit (s : string) :
  str_all is_decimal s = true -> str_all char_isdigit s = true.
Proof.
  induction s as [|c s IH]; cbn [str_all]; intros H; [reflexivity|].
  apply andb_true_iff in H. destruct H as [Hc Hs].
  apply andb_true_iff. split; [|exact (IH Hs)].
  unfold char_isdigit. rewrite Hc. reflexivity.
Qed.

Lemma bd_loop_raises (current_date last_date : date) (rs : list record) :
  Exists (fun r => birthday r = None) rs ->
  forall acc, raises (bd_loop current_date last_date acc rs).
Proof.
  induction 1 as [r rest Hnone | r rest _ IH]; intros acc; simpl.
  - unfold bd_step. rewrite Hnone. simpl. eexists. reflexivity.
  - destruct (bd_step current_date last_date acc r) as [acc'|e]; simpl.
    + apply IH.
    + eexists. reflexivity.
Qed.

(** C6: if some record of the book has no birthday, the query raises
    for every run of decimal digits given as the window (no result is
    returned, the record is not skipped); and for every string that is
    not a run of decimal digits the query raises [ValueError] whatever
    the book holds. *)
Theorem C6_groups_days_to_bd_failures (today : date) (self : AddressBook) (input_days : string) :
  (Exists (fun r => birthday r = None) (dict_values self) ->
   is_nonneg_int_str input_days = true ->
   raises (groups_days_to_bd today self input_days)) /\
  (is_nonneg_int_str input_days = false ->
   groups_days_to_bd today self input_days = Raise ValueError).
Proof.
  unfold groups_days_to_bd, int_of_str, is_nonneg_int_str. split.
  - intros Hex Hvalid. rewrite Hvalid.
    apply andb_true_iff in Hvalid. destruct Hvalid as [Hne Hdec].
    unfold isdigit. rewrite Hne, (decimal_isdigit _ Hdec). cbn [andb negb].
    destruct (int_max_str_digits <? Z.of_nat (String.length input_days)); cbn [bind];
      [eexists; reflexivity|].
    destruct (timedelta_days (digits_val 0 input_days)) as [td|e]; simpl;
      [|eexists; reflexivity].
    destruct (date_add today td) as [last|e]; simpl; [|eexists; reflexivity].
    apply bd_loop_raises. exact Hex.
  - intros Hbad. rewrite Hbad.
    destruct (negb (isdigit input_days)); reflexivity.
Qed.

(** ** Strings: substrings and lowering *)

Lemma starts_with_spec (p s : string) :
  starts_with p s = true <-> exists t, s = p ++ t.
Proof.
  revert s. induction p as [|a p IH]; intros s; simpl.
  - split; [intros _; exists s; reflexivity | reflexivity].
  - destruct s as [|b s].
    + split; [discriminate | intros [t Ht]; discriminate Ht].
    + rewrite andb_true_iff, Ascii.eqb_eq, IH. split.
      * intros [Hab [t Ht]]. exists t. subst. reflexivity.
      * intros [t Ht]. injection Ht as Hb Hs. split; [congruence | exists t; exact Hs].
Qed.

Lemma contains_spec (needle hay : string) :
  contains needle hay = true <-> exists pre post, hay = pre ++ needle ++ post.
Proof.
  induction hay as [|c hay IH]; cbn [contains]; rewrite orb_true_iff, starts_with_spec.
  - split.
    + intros [[t Ht] | Hf]; [exists "", t; exact Ht | discriminate Hf].
    + intros [pre [post H]]. left. destruct pre as [|x pre]; [|discriminate H].
      exists post. exact H.
  - rewrite IH. split.
    + intros [[t Ht] | [pre [post H]]].
      * exists "", t. exact Ht.
      * exists (String c pre), post. simpl. rewrite H. reflexivity.
    + intros [pre [post H]]. destruct pre as [|x pre].
      * left. exists post. exact H.
      * right. simpl in H. injection H as _ H. exists pre, post. exact H.
Qed.

Lemma str_map_app (f : ascii -> ascii) (a b : string) :
  str_map f (a ++ b) = str_map f a ++ str_map f b.
Proof. induction a as [|c a IH]; simpl; [reflexivity | rewrite IH; reflexivity]. Qed.

Lemma str_map_app_inv (f : ascii -> ascii) (s a b : string) :
  str_map f s = a ++ b ->
  exists a' b', s = a' ++ b' /\ str_map f a' = a /\ str_map f b' = b.
Proof.
  revert s. induction a as [|c a IH]; intros s H; simpl in H.
  - exists "", s. repeat split. exact H.
  - destruct s as [|x s]; simpl in H; [discriminate H|].
    injection H as Hc Hs. destruct (IH s Hs) as [a' [b' [E [Ha Hb]]]].
    exists (String x a'), b'. subst. repeat split.
Qed.

Lemma str_map_length (f : ascii -> ascii) (s : string) :
  String.length (str_map f s) = String.length s.
Proof. induction s as [|c s IH]; simpl; [reflexivity | rewrite IH; reflexivity]. Qed.

(** The test [search] performs is occurrence up to letter case. *)
Lemma contains_lower_spec (term text : string) :
  contains (lower term) (lower text) = true <-> ci_substring term text.
Proof.
  rewrite contains_spec. unfold ci_substring, lower. split.
  - intros [pre [post H]].
    destruct (str_map_app_inv _ _ _ _ H) as [pre' [rest [E [Hpre Hrest]]]].
    destruct (str_map_app_inv _ _ _ _ Hrest) as [mid [post' [E' [Hmid Hpost]]]].
    exists pre', mid, post'. subst. split; [reflexivity | exact Hmid].
  - intros [pre [mid [post [E Hmid]]]].
    exists (str_map char_lower pre), (str_map char_lower post).
    subst text. rewrite !str_map_app, Hmid. reflexivity.
Qed.

(** ** AddressBook: search *)

Lemma search_loop_filter (search_word : string) (rs acc : list record) :
  search_loop search_word acc rs = (acc ++ filter (search_test search_word) rs)%list.
Proof.
  revert acc. induction rs as [|r rs IH]; intros acc; simpl.
  - rewrite app_nil_r. reflexivity.
  - unfold search_test at 1.
    destruct (contains (lower search_word) (lower (str_val_record r))).
    + rewrite IH, <- app_assoc. reflexivity.
    + apply IH.
Qed.

(** ** AddressBook: batches *)

Lemma counter_mod_step (q c k : Z) :
  0 < q -> (c - 1) mod q = k -> k < q ->
  (c mod q =? 0) = (k + 1 =? q).
Proof.
  intros Hq Hmod Hk.
  assert (Hk0 : 0 <= k) by (subst k; apply Z.mod_pos_bound; exact Hq).
  replace c with ((c - 1) + 1) at 1 by lia.
  rewrite <- Z.add_mod_idemp_l by lia. rewrite Hmod.
  destruct (Z.eqb_spec (k + 1) q) as [E | E].
  - rewrite E, Z.mod_same by lia. reflexivity.
  - rewrite Z.mod_small by lia. apply Z.eqb_neq. lia.
Qed.

Lemma counter_mod_next (q c k : Z) :
  0 < q -> (c - 1) mod q = k -> k + 1 < q -> (c + 1 - 1) mod q = k + 1.
Proof.
  intros Hq Hmod Hk.
  assert (Hk0 : 0 <= k) by (subst k; apply Z.mod_pos_bound; exact Hq).
  replace (c + 1 - 1) with ((c - 1) + 1) by lia.
  rewrite <- Z.add_mod_idemp_l by lia. rewrite Hmod.
  apply Z.mod_small. lia.
Qed.

(** Under the loop invariant (the counter is one more than the number
    of records consumed, the open batch holds the records since the
    last multiple of the batch size) the tests on the counter are tests
    on the length of the batch and on the end of the input. *)
Lemma iterator_loop_chunk (q n : Z) (rs : list record) :
  0 < q ->
  forall (c : Z) (cur : list record),
    (c - 1) mod q = Z.of_nat (List.length cur) ->
    Z.of_nat (List.length cur) < q ->
    c + Z.of_nat (List.length rs) = n + 1 ->
    iterator_loop q n c cur rs = chunk_loop (Z.to_nat q) cur rs.
Proof.
  intros Hq. induction rs as [|r rest IH]; intros c cur Hmod Hlt Hlen; [reflexivity|].
  cbn [iterator_loop chunk_loop].
  rewrite (counter_mod_step q c _ Hq Hmod Hlt).
  assert (Hlen' : List.length (cur ++ [r])%list = S (List.length cur))
    by (rewrite length_app; simpl; lia).
  rewrite Hlen'.
  assert (Hfull : (Z.of_nat (List.length cur) + 1 =? q)
                  = Nat.eqb (S (List.length cur)) (Z.to_nat q)).
  { destruct (Z.eqb_spec (Z.of_nat (List.length cur) + 1) q) as [E | E];
      symmetry; [apply Nat.eqb_eq | apply Nat.eqb_neq]; lia. }
  rewrite Hfull.
  destruct rest as [|r' rest'].
  - assert (Hend : (c =? n) = true) by (apply Z.eqb_eq; simpl in Hlen; lia).
    rewrite Hend, !orb_true_r. reflexivity.
  - assert (Hend : (c =? n) = false)
      by (apply Z.eqb_neq; cbn [List.length] in Hlen; lia).
    rewrite Hend, !orb_false_r.
    destruct (Nat.eqb (S (List.length cur)) (Z.to_nat q)) eqn:E.
    + f_equal. apply IH.
      * apply Nat.eqb_eq in E.
        replace (c + 1 - 1) with ((c - 1) + 1) by lia.
        rewrite <- Z.add_mod_idemp_l by lia. rewrite Hmod.
        replace (Z.of_nat (List.length cur) + 1) with q by lia.
        rewrite Z.mod_same by lia. reflexivity.
      * simpl. exact Hq.
      * cbn [List.length] in *. lia.
    + apply Nat.eqb_neq in E. apply IH.
      * rewrite Hlen'. rewrite Nat2Z.inj_succ. unfold Z.succ.
        apply counter_mod_next; [exact Hq | exact Hmod | lia].
      * rewrite Hlen'. lia.
      * cbn [List.length] in *. lia.
Qed.

Lemma chunk_loop_concat (q : nat) (rs cur : list record) :
  concat (chunk_loop q cur rs) = match rs with [] => [] | _ :: _ => (cur ++ rs)%list end.
Proof.
  revert cur. induction rs as [|r rest IH]; intros cur; [reflexivity|].
  cbn [chunk_loop]. destruct rest as [|r' rest'].
  - rewrite orb_true_r. cbn [chunk_loop concat]. apply app_nil_r.
  - rewrite orb_false_r.
    destruct (Nat.eqb (List.length (cur ++ [r])%list) q).
    + cbn [concat]. rewrite IH. rewrite <- app_assoc. reflexivity.
    + rewrite IH. rewrite <- app_assoc. reflexivity.
Qed.

Lemma chunk_loop_nonempty (q : nat) (rs cur : list record) :
  rs <> [] -> chunk_loop q cur rs <> [].
Proof.
  revert cur. induction rs as [|r rest IH]; intros cur Hne; [congruence|].
  cbn [chunk_loop]. destruct rest as [|r' rest'].
  - rewrite orb_true_r. discriminate.
  - rewrite orb_false_r.
    destruct (Nat.eqb (List.length (cur ++ [r])%list) q); [discriminate|].
    apply IH. discriminate.
Qed.

Lemma chunk_loop_shape (q : nat) (rs cur : list record) :
  (List.length cur < q)%nat -> batches_shape q (chunk_loop q cur rs).
Proof.
  revert cur. induction rs as [|r rest IH]; intros cur Hlt; [exact I|].
  assert (Hlen : List.length (cur ++ [r])%list = S (List.length cur))
    by (rewrite length_app; simpl; lia).
  cbn [chunk_loop]. destruct rest as [|r' rest'].
  - rewrite orb_true_r. cbn [chunk_loop batches_shape]. lia.
  - rewrite orb_false_r.
    destruct (Nat.eqb (List.length (cur ++ [r])%list) q) eqn:E.
    + apply Nat.eqb_eq in E. cbn [batches_shape].
      pose proof (chunk_loop_nonempty q (r' :: rest') []) as Hne.
      destruct (chunk_loop q [] (r' :: rest')) as [|b bs] eqn:Eb.
      * exfalso. apply Hne; [discriminate | reflexivity].
      * split; [exact E|]. rewrite <- Eb. apply IH. simpl. lia.
    + apply Nat.eqb_neq in E. apply IH. lia.
Qed.

Lemma batches_shape_bounds (q : nat) (bs : list (list record)) :
  batches_shape q bs -> Forall (fun b => (1 <= List.length b <= q)%nat) bs.
Proof.
  induction bs as [|b rest IH]; intros H; [constructor|].
  cbn [batches_shape] in H. destruct rest as [|b' rest'].
  - constructor; [exact H | constructor].
  - destruct H as [Hb Hrest]. pose proof (IH Hrest) as Hall.
    constructor; [|exact Hall].
    inversion Hall as [|? ? Hb' _]; subst. lia.
Qed.

Lemma batches_shape_full (q : nat) (bs : list (list record)) :
  batches_shape q bs ->
  forall i, (S i < List.length bs)%nat -> List.length (nth i bs []) = q.
Proof.
  induction bs as [|b rest IH]; intros H i Hi; [simpl in Hi; lia|].
  cbn [batches_shape] in H. destruct rest as [|b' rest'].
  - simpl in Hi. lia.
  - destruct H as [Hb Hrest]. destruct i as [|i]; [exact Hb|].
    cbn [nth]. apply IH; [exact Hrest|]. cbn [List.length] in *. lia.
Qed.

(** What [iterator] computes for a positive page size. *)
Lemma iterator_chunks (self : AddressBook) (item_number : Z) :
  0 < item_number ->
  iterator self item_number
  = Ok (chunk_loop (Z.to_nat (Z.min item_number (Z.of_nat (List.length self))))
                   [] (dict_values self)).
Proof.
  intros Hpos. unfold iterator.
  destruct (Z.leb_spec item_number 0) as [Hle | _]; [lia|].
  set (n := Z.of_nat (List.length self)).
  assert (Hq : (if n <? item_number then n else item_number) = Z.min item_number n).
  { destruct (Z.ltb_spec n item_number); lia. }
  rewrite Hq. f_equal.
  destruct self as [|kv rest] eqn:Eself; [reflexivity|].
  assert (Hn : 0 < n) by (unfold n; cbn [List.length]; lia).
  apply iterator_loop_chunk.
  - lia.
  - simpl. apply Z.mod_0_l. lia.
  - simpl. lia.
  - unfold n, dict_values. rewrite length_map. lia.
Qed.

(** C7: a page size of zero or less makes the iteration fail; a
    positive page size [p] over [n] records is used as [min p n], and
    the batches yielded are consecutive pieces of the records in
    insertion order whose concatenation is the whole sequence, each of
    [min p n] records except the last, which holds between 1 and
    [min p n]; a page size above [n] behaves as [n]; and page size 2
    over five records yields batches of 2, 2 and 1. *)
Theorem C7_iterator_batches (self : AddressBook) (p : Z) :
  (p <= 0 -> iterator self p = Raise ValueError) /\
  (0 < p ->
   exists bs,
     iterator self p = Ok bs /\
     concat bs = dict_values self /\
     Forall (fun b => (1 <= List.length b
                       <= Z.to_nat (Z.min p (Z.of_nat (List.length self))))%nat) bs /\
     (forall i, (S i < List.length bs)%nat ->
                List.length (nth i bs [])
                = Z.to_nat (Z.min p (Z.of_nat (List.length self))))) /\
  (Z.of_nat (List.length self) < p -> self <> [] ->
   iterator self p = iterator self (Z.of_nat (List.length self))) /\
  (List.length self = 5%nat ->
   exists bs, iterator self 2 = Ok bs /\
              map (@List.length record) bs = [2; 2; 1]%nat /\
              concat bs = dict_values self).
Proof.
  split; [|split; [|split]].
  - intros Hle. unfold iterator.
    destruct (Z.leb_spec p 0) as [_ | Hgt]; [reflexivity | lia].
  - intros Hpos. eexists. split; [apply iterator_chunks; exact Hpos|].
    set (q := Z.to_nat (Z.min p (Z.of_nat (List.length self)))).
    assert (Hshape : batches_shape q (chunk_loop q [] (dict_values self))).
    { destruct self as [|kv rest] eqn:E; [exact I|].
      apply chunk_loop_shape. unfold q. cbn [List.length]. lia. }
    split; [|split].
    + rewrite chunk_loop_concat. destruct (dict_values self); reflexivity.
    + apply batches_shape_bounds. exact Hshape.
    + apply batches_shape_full. exact Hshape.
  - intros Hlt Hne.
    assert (Hn : 0 < Z.of_nat (List.length self))
      by (destruct self; [congruence | cbn [List.length]; lia]).
    rewrite !iterator_chunks by lia. do 2 f_equal. lia.
  - intros H5.
    destruct self as [|a [|b [|c [|d [|e [|f rest]]]]]]; try discriminate H5.
    eexists. split; [reflexivity|]. split; reflexivity.
Qed.

Lemma C7_iterator_batches_witness :
  iterator five_records 0 = Raise ValueError /\
  (exists bs,
     iterator five_records 2 = Ok bs /\
     concat bs = dict_values five_records /\
     Forall (fun b => (1 <= List.length b <= 2)%nat) bs /\
     (forall i, (S i < List.length bs)%nat -> List.length (nth i bs []) = 2%nat)) /\
  iterator five_records 7 = iterator five_records 5 /\
  (exists bs, iterator five_records 2 = Ok bs /\
              map (@List.length record) bs = [2; 2; 1]%nat /\
              concat bs = dict_values five_records).
Proof.
  destruct (C7_iterator_batches five_records 0) as [H0 _].
  destruct (C7_iterator_batches five_records 2) as [_ [H2 [_ H5]]].
  destruct (C7_iterator_batches five_records 7) as [_ [_ [H7 _]]].
  split; [apply H0; lia|].
  split; [apply H2; lia|].
  split; [apply H7; [simpl; lia | discriminate]|].
  apply H5. reflexivity.
Defined.

(** ** Witnesses on sample data *)

Lemma C5_add_record_duplicate_key_witness :
  add_record [("Anna", anna)] anna_again = ([("Anna", anna)], Raise KeyError) /\
  dict_get (fst (add_record [("Anna", anna)] anna_again)) "Anna"
    = dict_get [("Anna", anna)] "Anna".
Proof.
  apply (C5_add_record_duplicate_key [("Anna", anna)] anna_again). reflexivity.
Defined.

Lemma C6_groups_days_to_bd_failures_witness :
  raises (groups_days_to_bd (mkDate 2023 3 1)
            [("Anna", anna); ("Boris", boris_no_birthday)] "7") /\
  groups_days_to_bd (mkDate 2023 3 1)
    [("Anna", anna); ("Boris", boris_no_birthday)] "a week" = Raise ValueError.
Proof.
  split.
  - apply (proj1 (C6_groups_days_to_bd_failures (mkDate 2023 3 1)
                    [("Anna", anna); ("Boris", boris_no_birthday)] "7")).
    + apply Exists_cons_tl, Exists_cons_hd. reflexivity.
    + reflexivity.
  - apply (proj2 (C6_groups_days_to_bd_failures (mkDate 2023 3 1)
                    [("Anna", anna); ("Boris", boris_no_birthday)] "a week")).
    reflexivity.
Defined.

(** With a birthday on every record the same query answers. *)
Example groups_days_to_bd_answers :
  groups_days_to_bd (mkDate 2023 3 1) [("Anna", anna)] "7" = Ok [anna] /\
  groups_days_to_bd (mkDate 2023 3 1) [("Anna", anna)] "3" = Ok [] /\
  groups_days_to_bd (mkDate 2023 3 1) [("Anna", anna); ("Boris", boris_no_birthday)] "7"
    = Raise (AttributeError "get_date").
Proof. repeat split. Qed.

(** * Further properties *)

(** ** Phone: what the constructor accepts *)

Lemma str_filter_all (p : ascii -> bool) (s : string) :
  str_all p s = true -> str_filter p s = s.
Proof.
  induction s as [|c s IH]; cbn [str_all str_filter]; intros H; [reflexivity|].
  apply andb_true_iff in H. destruct H as [Hc Hs].
  rewrite Hc, (IH Hs). reflexivity.
Qed.

Lemma decimal_not_separator (c : ascii) :
  is_decimal c = true -> negb (phone_separator c) = true.
Proof.
  intros H. unfold phone_separator.
  destruct (Ascii.eqb_spec c " ") as [E|_]; [subst; discriminate H|].
  destruct (Ascii.eqb_spec c "(") as [E|_]; [subst; discriminate H|].
  destruct (Ascii.eqb_spec c ")") as [E|_]; [subst; discriminate H|].
  destruct (Ascii.eqb_spec c "-") as [E|_]; [subst; discriminate H|].
  reflexivity.
Qed.

Lemma str_all_impl (p q : ascii -> bool) (s : string) :
  (forall c, p c = true -> q c = true) -> str_all p s = true -> str_all q s = true.
Proof.
  intros Hpq. induction s as [|c s IH]; cbn [str_all]; intros H; [reflexivity|].
  apply andb_true_iff in H. destruct H as [Hc Hs].
  rewrite (Hpq c Hc), (IH Hs). reflexivity.
Qed.

Lemma strip_separators_digits (d : string) :
  str_all is_decimal d = true -> strip_separators d = d.
Proof.
  intros H. apply str_filter_all.
  apply (str_all_impl is_decimal); [exact decimal_not_separator | exact H].
Qed.

(** X1: [Phone(raw)] succeeds exactly when [raw], once spaces,
    parentheses and hyphens are removed, is +380, 380, 80 or 0 followed
    by nine decimal digits; the field then holds [raw] itself; in every
    other case the constructor raises [ValueError]. *)
Theorem X1_phone_constructor_accepts (raw : string) :
  (Phone_new raw = Ok (mkField raw) <->
   exists d, is_nine_digits d /\
             (strip_separators raw = "+380" ++ d \/ strip_separators raw = "380" ++ d \/
              strip_separators raw = "80" ++ d \/ strip_separators raw = "0" ++ d)) /\
  (Phone_new raw = Ok (mkField raw) \/ Phone_new raw = Raise ValueError).
Proof.
  rewrite Phone_new_unfold. split.
  - split.
    + intros H. destruct (Phone_validate raw) as [out|e] eqn:E; [|discriminate H].
      apply Phone_validate_spec in E. destruct E as [d [Hd [Hforms _]]].
      exists d. split; assumption.
    + intros [d [Hd Hforms]].
      assert (E : Phone_validate raw = Ok ("+380" ++ d)).
      { apply Phone_validate_spec. exists d. repeat split; try assumption; apply Hd. }
      rewrite E. reflexivity.
  - destruct (Phone_validate raw) as [out|e] eqn:E; [left; reflexivity|].
    right. assert (Hrej : Phone_validate raw = Raise ValueError).
    { apply Phone_validate_rejects. intros out. rewrite E. discriminate. }
    rewrite E in Hrej. injection Hrej as Hrej. subst e. reflexivity.
Qed.

(** X2: the number [Phone._validate] returns is in canonical form: it
    passes the validator again and the validator returns it unchanged,
    so a [Phone] built from it stores the canonical number. *)
Theorem X2_phone_canonical_form_is_fixed (raw out : string) :
  Phone_validate raw = Ok out ->
  Phone_validate out = Ok out /\ Phone_new out = Ok (mkField out).
Proof.
  intros H. apply Phone_validate_spec in H.
  destruct H as [d [[Hlen Hdec] [_ Hout]]].
  assert (Hfix : Phone_validate out = Ok out).
  { apply Phone_validate_spec. exists d. split; [split; assumption|].
    split; [|exact Hout]. left. subst out.
    unfold strip_separators. cbn [str_filter append phone_separator].
    cbn. do 4 f_equal. apply strip_separators_digits. exact Hdec. }
  split; [exact Hfix|]. rewrite Phone_new_unfold, Hfix. reflexivity.
Qed.

Lemma X2_phone_canonical_form_is_fixed_witness :
  Phone_validate "+380931112233" = Ok "+380931112233" /\
  Phone_new "+380931112233" = Ok (mkField "+380931112233").
Proof.
  apply (X2_phone_canonical_form_is_fixed "(093) 111-22-33" "+380931112233").
  reflexivity.
Defined.

(** ** Email and Address: what the validators accept *)

Lemma match_many_spec (p : ascii -> bool) (s : string) :
  forall (min : nat) (k : string -> bool),
    match_many p min s k = true <->
    exists u v, s = u ++ v /\ ((min <= String.length u)%nat /\ str_all p u = true)
                /\ k v = true.
Proof.
  induction s as [|c s IH]; intros min k; cbn [match_many]; rewrite orb_true_iff.
  - split.
    + intros [H | H]; [|discriminate H].
      destruct min; [|discriminate H]. exists "", "". repeat split; [simpl; lia | exact H].
    + intros [u [v [E [[Hmin Hall] Hk]]]]. left.
      destruct u; [|discriminate E]. simpl in E. subst v.
      simpl in Hmin. destruct min; [exact Hk | lia].
  - rewrite andb_true_iff, IH. split.
    + intros [H | [Hc [u [v [E [[Hmin Hall] Hk]]]]]].
      * destruct min; [|discriminate H]. exists "", (String c s).
        repeat split; [simpl; lia | exact H].
      * exists (String c u), v. subst s. repeat split.
        -- simpl. lia.
        -- cbn [str_all]. rewrite Hc, Hall. reflexivity.
        -- exact Hk.
    + intros [u [v [E [[Hmin Hall] Hk]]]]. destruct u as [|x u].
      * left. simpl in E. subst v. simpl in Hmin. destruct min; [exact Hk | lia].
      * right. simpl in E. injection E as Hx Hs. subst x.
        cbn [str_all] in Hall. apply andb_true_iff in Hall. destruct Hall as [Hc Hall].
        split; [exact Hc|]. exists u, v. repeat split; try assumption.
        simpl in Hmin. lia.
Qed.

Lemma match_ext_spec (r : regex_ext) :
  forall (s : string) (k : string -> bool),
    match_ext r s k = true <-> exists u v, s = u ++ v /\ lang_ext r u /\ k v = true.
Proof.
  induction r as [r0 | min p | a IHa b IHb]; intros s k; cbn [match_ext lang_ext].
  - apply match_k_spec.
  - apply match_many_spec.
  - rewrite IHa. split.
    + intros [u1 [v1 [E [Ha Hb]]]]. apply IHb in Hb.
      destruct Hb as [u2 [v2 [E2 [Hb Hk]]]]. subst.
      exists (u1 ++ u2), v2. rewrite str_app_assoc. repeat split; [|exact Hk].
      exists u1, u2. repeat split; assumption.
    + intros [u [v [E [[u1 [u2 [Eu [Ha Hb]]]] Hk]]]]. subst.
      exists u1, (u2 ++ v). rewrite str_app_assoc. repeat split; [exact Ha|].
      apply IHb. exists u2, v. repeat split; assumption.
Qed.

Lemma fullmatch_ext_spec (r : regex_ext) (s : string) :
  fullmatch_ext r s = true <-> lang_ext r s.
Proof.
  unfold fullmatch_ext. rewrite match_ext_spec. split.
  - intros [u [v [E [H Hk]]]]. destruct v; [|discriminate Hk].
    rewrite str_app_nil_r in E. subst. exact H.
  - intros H. exists s, "". rewrite str_app_nil_r. repeat split. exact H.
Qed.

Lemma nonspace_or_dot_nonspace (c : ascii) :
  nonspace_or_dot c = negb (is_space c).
Proof.
  unfold nonspace_or_dot. destruct (Ascii.eqb_spec c ".") as [E|_].
  - subst c. reflexivity.
  - apply orb_false_r.
Qed.

Lemma str_all_ext (p q : ascii -> bool) (s : string) :
  (forall c, p c = q c) -> str_all p s = str_all q s.
Proof.
  intros H. induction s as [|c s IH]; cbn [str_all]; [reflexivity|].
  rewrite H, IH. reflexivity.
Qed.

(** X3: [Email._validate] accepts exactly the strings made of one
    letter, one or more characters that are not whitespace, an at sign,
    one or more letters, a dot, and two or more letters; everything else
    raises [ValueError]. *)
Theorem X3_email_accepted_shape (v : string) :
  (Email_validate v = Ok tt <->
   exists (c : ascii) (local dom tld : string),
     v = String c local ++ "@" ++ dom ++ "." ++ tld /\
     is_letter c = true /\
     (1 <= String.length local)%nat /\ str_all (fun x => negb (is_space x)) local = true /\
     (1 <= String.length dom)%nat /\ str_all is_letter dom = true /\
     (2 <= String.length tld)%nat /\ str_all is_letter tld = true) /\
  (Email_validate v = Ok tt \/ Email_validate v = Raise ValueError).
Proof.
  split.
  - unfold Email_validate.
    destruct (fullmatch_ext email_pattern v) eqn:E; cbn [negb].
    + apply fullmatch_ext_spec in E. unfold email_pattern in E. cbn [lang_ext lang rep_lang] in E.
      destruct E as [u1 [r1 [E1 [[a [a' [Ea [[c [Ec Hc]] Ha']]]] H1]]]].
      destruct H1 as [local [r2 [E2 [[Hl1 Hl2] H2]]]].
      destruct H2 as [at_ [r3 [E3 [Hat H3]]]].
      destruct H3 as [dom [r4 [E4 [[Hd1 Hd2] H4]]]].
      destruct H4 as [dot [tld [E5 [Hdot [Ht1 Ht2]]]]].
      subst. split; [|reflexivity]. intros _.
      exists c, local, dom, tld. repeat split; try assumption.
      rewrite <- Hl2. apply str_all_ext. intros x. symmetry. apply nonspace_or_dot_nonspace.
    + split; [discriminate|].
      intros [c [local [dom [tld [Ev [Hc [Hl1 [Hl2 [Hd1 [Hd2 [Ht1 Ht2]]]]]]]]]]].
      assert (Hm : fullmatch_ext email_pattern v = true).
      { apply fullmatch_ext_spec. unfold email_pattern. cbn [lang_ext lang rep_lang].
        exists (String c ""), (local ++ "@" ++ dom ++ "." ++ tld).
        split; [exact Ev|]. split.
        { exists (String c ""), "". repeat split. exists c. split; [reflexivity | exact Hc]. }
        exists local, ("@" ++ dom ++ "." ++ tld). split; [reflexivity|]. split.
        { split; [exact Hl1|]. rewrite <- Hl2. apply str_all_ext.
          intros x. apply nonspace_or_dot_nonspace. }
        exists "@", (dom ++ "." ++ tld). split; [reflexivity|]. split; [reflexivity|].
        exists dom, ("." ++ tld). split; [reflexivity|]. split; [split; assumption|].
        exists ".", tld. repeat split; assumption. }
      congruence.
  - unfold Email_validate. destruct (fullmatch_ext email_pattern v); [left | right]; reflexivity.
Qed.

Lemma str_all_false_iff (p : ascii -> bool) (s : string) :
  str_all p s = false <-> exists pre c post, s = pre ++ String c post /\ p c = false.
Proof.
  induction s as [|c s IH]; cbn [str_all].
  - split; [discriminate|]. intros [pre [c [post [E _]]]]. destruct pre; discriminate E.
  - rewrite andb_false_iff, IH. split.
    + intros [Hc | [pre [x [post [E Hx]]]]].
      * exists "", c, s. split; [reflexivity | exact Hc].
      * exists (String c pre), x, post. subst s. split; [reflexivity | exact Hx].
    + intros [pre [x [post [E Hx]]]]. destruct pre as [|y pre]; simpl in E.
      * injection E as Ec Es. subst. left. exact Hx.
      * injection E as Ec Es. right. exists pre, x, post. split; assumption.
Qed.

(** X4: [Address._validate] accepts exactly the strings of 5 to 50
    characters that hold at least one character that is not
    whitespace. *)
Theorem X4_address_accepted_shape (v : string) :
  Address_validate v = Ok tt <->
  (5 <= String.length v <= 50)%nat /\
  exists pre c post, v = pre ++ String c post /\ is_space c = false.
Proof.
  unfold Address_validate, isspace. split.
  - intros H.
    destruct (negb (str_is_empty v) && str_all is_space v)%bool eqn:Esp; [discriminate H|].
    destruct (Nat.leb_spec 5 (String.length v)) as [H5|]; [|discriminate H].
    destruct (Nat.leb_spec (String.length v) 50) as [H50|]; [|discriminate H].
    split; [lia|].
    apply andb_false_iff in Esp. destruct Esp as [Hemp | Hall].
    + destruct v; [simpl in H5; lia | discriminate Hemp].
    + apply str_all_false_iff. exact Hall.
  - intros [[H5 H50] Hex].
    apply str_all_false_iff in Hex. rewrite Hex, andb_false_r.
    destruct (Nat.leb_spec 5 (String.length v)) as [_|]; [|lia].
    destruct (Nat.leb_spec (String.length v) 50) as [_|]; [|lia].
    reflexivity.
Qed.

(** ** AddressBook: insertion, lookup, deletion *)

Lemma dict_mem_In {V : Type} (d : dict V) (key : string) :
  dict_mem d key = true <-> In key (map fst d).
Proof.
  unfold dict_mem. induction d as [|[k w] rest IH]; simpl.
  - split; [discriminate | intros []].
  - destruct (String.eqb_spec k key) as [E|E].
    + split; [intros _; left; exact E | reflexivity].
    + rewrite IH. split; [intros H; right; exact H|].
      intros [H|H]; [contradiction | exact H].
Qed.

Lemma dict_mem_false {V : Type} (d : dict V) (key : string) :
  dict_mem d key = false <-> ~ In key (map fst d).
Proof.
  rewrite <- dict_mem_In. destruct (dict_mem d key); split; congruence.
Qed.

Lemma dict_get_set_other {V : Type} (d : dict V) (key k : string) (v : V) :
  k <> key -> dict_get (dict_set d key v) k = dict_get d k.
Proof.
  intros Hne. induction d as [|[k' w] rest IH]; simpl.
  - destruct (String.eqb_spec key k); [congruence | reflexivity].
  - destruct (String.eqb_spec k' key) as [E|E]; simpl.
    + subst k'. destruct (String.eqb_spec key k); [congruence | reflexivity].
    + destruct (String.eqb k' k); [reflexivity | exact IH].
Qed.

Lemma dict_get_del_other {V : Type} (d : dict V) (key k : string) :
  k <> key -> dict_get (dict_del d key) k = dict_get d k.
Proof.
  intros Hne. induction d as [|[k' w] rest IH]; simpl; [reflexivity|].
  destruct (String.eqb_spec k' key) as [E|E]; simpl.
  - subst k'. destruct (String.eqb_spec key k); [congruence | reflexivity].
  - destruct (String.eqb k' k); [reflexivity | exact IH].
Qed.

Lemma dict_get_del_same {V : Type} (d : dict V) (key : string) :
  NoDup (map fst d) -> dict_get (dict_del d key) key = None.
Proof.
  induction d as [|[k' w] rest IH]; simpl; intros Hnd; [reflexivity|].
  inversion Hnd as [|? ? Hnotin Hrest]; subst.
  destruct (String.eqb_spec k' key) as [E|E]; simpl.
  - subst k'. apply dict_mem_false in Hnotin. unfold dict_mem in Hnotin.
    destruct (dict_get rest key); [discriminate Hnotin | reflexivity].
  - destruct (String.eqb_spec k' key); [contradiction|]. apply IH. exact Hrest.
Qed.

Lemma dict_del_keys_incl {V : Type} (d : dict V) (key k : string) :
  In k (map fst (dict_del d key)) -> In k (map fst d).
Proof.
  induction d as [|[k' w] rest IH]; simpl; [intros []|].
  destruct (String.eqb k' key); simpl.
  - intros H. right. exact H.
  - intros [H|H]; [left; exact H | right; apply IH; exact H].
Qed.

Lemma dict_del_NoDup {V : Type} (d : dict V) (key : string) :
  NoDup (map fst d) -> NoDup (map fst (dict_del d key)).
Proof.
  induction d as [|[k' w] rest IH]; simpl; intros Hnd; [constructor|].
  inversion Hnd as [|? ? Hnotin Hrest]; subst.
  destruct (String.eqb k' key); simpl; [exact Hrest|].
  constructor; [|apply IH; exact Hrest].
  intros Hin. apply Hnotin. apply (dict_del_keys_incl rest key). exact Hin.
Qed.

Lemma dict_del_length {V : Type} (d : dict V) (key : string) :
  dict_mem d key = true -> S (List.length (dict_del d key)) = List.length d.
Proof.
  unfold dict_mem. induction d as [|[k' w] rest IH]; simpl; [discriminate|].
  destruct (String.eqb k' key); simpl; [reflexivity|].
  intros H. rewrite (IH H). reflexivity.
Qed.

Lemma dict_del_Forall {V : Type} (P : string * V -> Prop) (d : dict V) (key : string) :
  Forall P d -> Forall P (dict_del d key).
Proof.
  induction 1 as [|[k' w] rest Hh Ht IH]; simpl; [constructor|].
  destruct (String.eqb k' key); [exact Ht | constructor; assumption].
Qed.

Lemma getitem_ok_iff (self : AddressBook) (key : string) (r : record) :
  getitem self key = Ok r <-> dict_get self key = Some r.
Proof.
  unfold getitem. destruct (dict_get self key); split; congruence.
Qed.

(** X5: adding a record whose name is not yet a key succeeds; the
    record is then found under its name, every other key finds what it
    found before, and the record comes last in the order of the book. *)
Theorem X5_add_record_then_lookup (self : AddressBook) (r : record) :
  dict_mem self (value (name r)) = false ->
  exists self',
    add_record self r = (self', Ok tt) /\
    getitem self' (value (name r)) = Ok r /\
    (forall k, k <> value (name r) -> getitem self' k = getitem self k) /\
    dict_values self' = (dict_values self ++ [r])%list.
Proof.
  intros Hfresh. exists (dict_set self (value (name r)) r).
  unfold add_record, setitem. rewrite Hfresh. split; [reflexivity|].
  split; [|split].
  - unfold getitem. rewrite dict_get_set_same by exact Hfresh. reflexivity.
  - intros k Hk. unfold getitem. rewrite dict_get_set_other by exact Hk. reflexivity.
  - rewrite dict_values_set_new by exact Hfresh.
    unfold dict_values. rewrite map_app. reflexivity.
Qed.

Lemma X5_add_record_then_lookup_witness :
  exists self',
    add_record [("Anna", anna)] boris_no_birthday = (self', Ok tt) /\
    getitem self' "Boris" = Ok boris_no_birthday /\
    (forall k, k <> "Boris" -> getitem self' k = getitem [("Anna", anna)] k) /\
    dict_values self' = [anna; boris_no_birthday].
Proof.
  apply (X5_add_record_then_lookup [("Anna", anna)] boris_no_birthday). reflexivity.
Defined.

(** X6: deleting a key that is absent raises [KeyError] and leaves the
    book as it was; deleting a present key of a book with distinct keys
    succeeds, after which that key is no longer found, every other key
    finds what it found before, the book is one record shorter, and a
    record of that name can be added again. *)
Theorem X6_delitem_behaviour (self : AddressBook) (key : string) :
  (dict_mem self key = false -> delitem self key = (self, Raise KeyError)) /\
  (dict_mem self key = true -> NoDup (keys self) ->
   exists self',
     delitem self key = (self', Ok tt) /\
     getitem self' key = Raise KeyError /\
     (forall k, k <> key -> getitem self' k = getitem self k) /\
     S (List.length self') = List.length self /\
     (forall r, value (name r) = key -> snd (add_record self' r) = Ok tt)).
Proof.
  unfold delitem. split.
  - intros H. rewrite H. reflexivity.
  - intros H Hnd. rewrite H. exists (dict_del self key). split; [reflexivity|].
    assert (Hgone : dict_get (dict_del self key) key = None)
      by (apply dict_get_del_same; exact Hnd).
    split; [|split; [|split]].
    + unfold getitem. rewrite Hgone. reflexivity.
    + intros k Hk. unfold getitem. rewrite dict_get_del_other by exact Hk. reflexivity.
    + apply dict_del_length. exact H.
    + intros r Hr. unfold add_record, setitem, dict_mem. rewrite Hr, Hgone. reflexivity.
Qed.

Lemma X6_delitem_behaviour_witness :
  delitem [("Anna", anna)] "Boris" = ([("Anna", anna)], Raise KeyError) /\
  exists self',
    delitem [("Anna", anna); ("Boris", boris_no_birthday)] "Anna" = (self', Ok tt) /\
    getitem self' "Anna" = Raise KeyError /\
    (forall k, k <> "Anna" ->
               getitem self' k = getitem [("Anna", anna); ("Boris", boris_no_birthday)] k) /\
    S (List.length self') = 2%nat /\
    (forall r, value (name r) = "Anna" -> snd (add_record self' r) = Ok tt).
Proof.
  split.
  - apply (proj1 (X6_delitem_behaviour [("Anna", anna)] "Boris")). reflexivity.
  - apply (proj2 (X6_delitem_behaviour [("Anna", anna); ("Boris", boris_no_birthday)] "Anna")).
    + reflexivity.
    + repeat constructor; simpl; intuition discriminate.
Defined.

(** X7: the empty book has distinct keys, each the name of its record;
    [add_record] and deletion keep both facts, whether they succeed or
    raise; and in such a book a lookup that succeeds returns a record
    whose name is the key asked for. *)
Theorem X7_book_invariants_preserved (self : AddressBook) :
  (NoDup (keys []) /\ keyed_by_name []) /\
  (NoDup (keys self) -> keyed_by_name self ->
   (forall r, NoDup (keys (fst (add_record self r)))
              /\ keyed_by_name (fst (add_record self r))) /\
   (forall key, NoDup (keys (fst (delitem self key)))
                /\ keyed_by_name (fst (delitem self key))) /\
   (forall key r, getitem self key = Ok r -> value (name r) = key)).
Proof.
  split; [split; constructor|].
  intros Hnd Hkn. split; [|split].
  - intros r. unfold add_record, setitem.
    destruct (dict_mem self (value (name r))) eqn:E; cbn [fst]; [split; assumption|].
    rewrite dict_values_set_new by exact E. unfold keys, keyed_by_name in *.
    rewrite map_app. split.
    + apply NoDup_app; [exact Hnd | repeat constructor; intros [] |].
      intros k Hk [Hk'|[]]. cbn [fst] in Hk'. subst k.
      apply dict_mem_false in E. contradiction.
    + apply Forall_app. split; [exact Hkn | repeat constructor].
  - intros key. unfold delitem.
    destruct (negb (dict_mem self key)); cbn [fst]; [split; assumption|].
    split; [apply dict_del_NoDup; exact Hnd | apply dict_del_Forall; exact Hkn].
  - intros key r Hget. apply getitem_ok_iff in Hget.
    unfold keyed_by_name in Hkn. clear Hnd.
    induction Hkn as [|[k w] rest Hh Ht IH]; simpl in Hget; [discriminate|].
    destruct (String.eqb_spec k key) as [E|E].
    + injection Hget as Hw. subst. symmetry. exact Hh.
    + apply IH. exact Hget.
Qed.

Lemma X7_book_invariants_preserved_witness :
  (forall r, NoDup (keys (fst (add_record [("Anna", anna)] r)))
             /\ keyed_by_name (fst (add_record [("Anna", anna)] r))) /\
  (forall key, NoDup (keys (fst (delitem [("Anna", anna)] key)))
               /\ keyed_by_name (fst (delitem [("Anna", anna)] key))) /\
  (forall key r, getitem [("Anna", anna)] key = Ok r -> value (name r) = key).
Proof.
  apply (proj2 (X7_book_invariants_preserved [("Anna", anna)])).
  - repeat constructor. intros [].
  - repeat constructor.
Defined.

(** ** AddressBook: export, import, rendering *)

Lemma to_dict_fold (rs : AddressBook) :
  forall acc : dict record_dict,
    NoDup (map fst acc ++ keys rs)%list -> keyed_by_name rs ->
    fold_left (fun res_dict r => dict_update res_dict (Record_to_dict r))
              (dict_values rs) acc
    = (acc ++ map (fun kv => (fst kv, record_fields (snd kv))) rs)%list.
Proof.
  induction rs as [|[k r] rest IH]; intros acc Hnd Hkn; cbn [dict_values map fold_left snd fst].
  - rewrite app_nil_r. reflexivity.
  - inversion Hkn as [|? ? Hk Hrest]; subst. cbn [fst snd] in Hk.
    fold (dict_values rest).
    assert (Hstep : dict_update acc (Record_to_dict r) = (acc ++ [(k, record_fields r)])%list).
    { unfold dict_update, Record_to_dict, Field_str. cbn [fold_left fst snd].
      rewrite <- Hk. apply dict_values_set_new. apply dict_mem_false.
      intros Hin. apply NoDup_remove_2 in Hnd. apply Hnd.
      apply in_or_app. left. exact Hin. }
    rewrite Hstep, IH.
    + rewrite <- app_assoc. reflexivity.
    + rewrite map_app, <- app_assoc. exact Hnd.
    + exact Hrest.
Qed.

(** X8: for a book with distinct keys, each the name of its record,
    [to_dict] has one entry per record, in the order of the book, under
    the same key, holding the record's phones and optional fields as
    strings; so a key is found in the export exactly when it is found
    in the book. *)
Theorem X8_to_dict_entry_per_record (self : AddressBook) :
  NoDup (keys self) -> keyed_by_name self ->
  AddressBook_to_dict self = map (fun kv => (fst kv, record_fields (snd kv))) self /\
  forall key, dict_get (AddressBook_to_dict self) key
              = option_map record_fields (dict_get self key).
Proof.
  intros Hnd Hkn.
  assert (E : AddressBook_to_dict self
              = map (fun kv => (fst kv, record_fields (snd kv))) self).
  { unfold AddressBook_to_dict. rewrite to_dict_fold; [reflexivity | exact Hnd | exact Hkn]. }
  split; [exact E|]. intros key. rewrite E. clear.
  induction self as [|[k r] rest IH]; simpl; [reflexivity|].
  destruct (String.eqb k key); [reflexivity | exact IH].
Qed.

Lemma X8_to_dict_entry_per_record_witness :
  AddressBook_to_dict [("Anna", anna); ("Boris", boris_no_birthday)]
  = [("Anna", record_fields anna); ("Boris", record_fields boris_no_birthday)] /\
  forall key, dict_get (AddressBook_to_dict [("Anna", anna); ("Boris", boris_no_birthday)]) key
              = option_map record_fields
                  (dict_get [("Anna", anna); ("Boris", boris_no_birthday)] key).
Proof.
  apply (X8_to_dict_entry_per_record [("Anna", anna); ("Boris", boris_no_birthday)]).
  - repeat constructor; simpl; intuition discriminate.
  - repeat constructor.
Defined.

Lemma from_dict_shaped
    (_name : arg CName -> result Name) (_phone : arg CPhone -> result Phone)
    (_email : arg CEmail -> result Email) (_birthday : arg CBirthday -> result Birthday)
    (_address : arg CAddress -> result Address)
    (self : AddressBook) (data_json : dict record_dict) :
  from_dict _name _phone _email _birthday _address self data_json
  = (self, match data_json with
           | [] => Ok tt
           | _ :: _ => Raise (AttributeError "_name")
           end).
Proof.
  destruct data_json as [|[nm rd] rest]; [reflexivity|].
  cbn [from_dict]. rewrite Record_init_raises. reflexivity.
Qed.

(** On a mapping of the shape [to_dict] produces, the method on
    arbitrary values does what the method on that shape does. *)
Lemma from_dict_any_shaped
    (rest_of_init : pyval -> pyval -> pyval -> pyval -> pyval -> result record)
    (_name : arg CName -> result Name) (_phone : arg CPhone -> result Phone)
    (_email : arg CEmail -> result Email) (_birthday : arg CBirthday -> result Birthday)
    (_address : arg CAddress -> result Address)
    (self : AddressBook) (data : dict record_dict) :
  from_dict_any rest_of_init self (pyval_of_dict data)
  = from_dict _name _phone _email _birthday _address self data.
Proof.
  rewrite from_dict_shaped. destruct data as [|[nm rd] rest]; reflexivity.
Qed.

(** X9: [from_dict] never changes the book.  It returns normally only
    on the empty mapping; an argument that is not a mapping raises
    [TypeError]; otherwise the first entry decides: [TypeError] when
    its value is not a mapping, [KeyError] when that mapping lacks one
    of phones, email, birthday, address, and [AttributeError] from the
    [Record] constructor when it has all four. *)
Theorem X9_from_dict_never_loads
    (rest_of_init : pyval -> pyval -> pyval -> pyval -> pyval -> result record)
    (self : AddressBook) (data_json : pyval) :
  from_dict_any rest_of_init self data_json
  = (self,
     match data_json with
     | PDict [] => Ok tt
     | PDict ((_, PDict fields) :: _) =>
         if has_record_keys fields then Raise (AttributeError "_name") else Raise KeyError
     | _ => Raise TypeError
     end).
Proof.
  destruct data_json as [| | | | | |items]; try reflexivity.
  destruct items as [|[nm rd] rest]; [reflexivity|].
  cbn [from_dict_any from_dict_items].
  destruct rd as [| | | | | |fields]; try reflexivity.
  unfold has_record_keys. cbn [subscript].
  destruct (pydict_get fields "phones"); cbn [bind andb]; [|reflexivity].
  destruct (pydict_get fields "email"); cbn [bind andb]; [|reflexivity].
  destruct (pydict_get fields "birthday"); cbn [bind andb]; [|reflexivity].
  destruct (pydict_get fields "address"); cbn [bind andb]; reflexivity.
Qed.

Example from_dict_any_examples
    (rest_of_init : pyval -> pyval -> pyval -> pyval -> pyval -> result record) :
  from_dict_any rest_of_init [("Anna", anna)] (PDict [(PStr "Alice", PDict [])])
    = ([("Anna", anna)], Raise KeyError) /\
  from_dict_any rest_of_init [("Anna", anna)] (PList [])
    = ([("Anna", anna)], Raise TypeError) /\
  from_dict_any rest_of_init [("Anna", anna)] (PDict [(PStr "Alice", PStr "x")])
    = ([("Anna", anna)], Raise TypeError) /\
  from_dict_any rest_of_init [("Anna", anna)]
    (pyval_of_dict (Record_to_dict anna_again))
    = ([("Anna", anna)], Raise (AttributeError "_name")).
Proof. repeat split. Qed.

Lemma chars_at_Record_str (rs : list record) :
  chars_at 9 (map Record_str rs) = Some (map (fun _ => nl) rs).
Proof.
  induction rs as [|r rest IH]; [reflexivity|].
  cbn [map chars_at].
  assert (Hget : String.get 9 (Record_str r) = Some (ascii_of_nat 10)) by reflexivity.
  rewrite Hget, IH. reflexivity.
Qed.

Lemma join_nl_newlines (n : nat) :
  str_all (Ascii.eqb (ascii_of_nat 10)) (join nl (repeat nl n)) = true /\
  String.length (join nl (repeat nl n)) = (2 * n - 1)%nat.
Proof.
  induction n as [|n [IHa IHl]]; [split; reflexivity|].
  destruct n as [|n]; [split; reflexivity|].
  change (join nl (repeat nl (S (S n)))) with (nl ++ nl ++ join nl (repeat nl (S n))).
  cbn [nl append str_all String.length]. rewrite IHa, IHl. split; [reflexivity | lia].
Qed.

(** X10: [output_all_data] never raises and shows nothing of the
    records: it takes the tenth character of each record's rendering,
    which is always the line break after the heading, so for a book of
    [n] records the result is [2n - 1] line breaks (the empty string
    for the empty book). *)
Theorem X10_output_all_data_is_newlines (self : AddressBook) :
  exists out,
    output_all_data self = Some out /\
    out = join nl (repeat nl (List.length self)) /\
    str_all (Ascii.eqb (ascii_of_nat 10)) out = true /\
    String.length out = (2 * List.length self - 1)%nat.
Proof.
  eexists. split; [|split; [reflexivity|apply join_nl_newlines]].
  unfold output_all_data. rewrite chars_at_Record_str. cbn [option_map]. f_equal. f_equal.
  unfold dict_values. rewrite map_map. clear.
  induction self as [|kv rest IH]; [reflexivity|]. cbn [map List.length repeat].
  rewrite IH. reflexivity.
Qed.

(** ** Record: the mutators *)

(** X11: no method of [Record] that changes a record ever returns: for
    every record and argument, [remove_phone], [change_phone],
    [change_email], [change_birthday] and [change_address] raise
    [AttributeError], and [add_phone] raises [ValueError] when the
    phone compares equal to one already listed and [AttributeError]
    otherwise. *)
Theorem X11_record_mutators_always_raise
    (_phone : arg CPhone -> result Phone) (_email : arg CEmail -> result Email)
    (_birthday : arg CBirthday -> result Birthday)
    (_address : arg CAddress -> result Address)
    (self : record) (p q : arg CPhone) (e : arg CEmail) (b : arg CBirthday)
    (a : arg CAddress) :
  add_phone _phone self p
    = Raise (if existsb (fun el => String.eqb (value el) (arg_value p)) (phones self)
             then ValueError else AttributeError "_phone") /\
  remove_phone _phone self p = Raise (AttributeError "_phone") /\
  change_phone _phone self p q = Raise (AttributeError "_phone") /\
  change_email _email self e = Raise (AttributeError "_email") /\
  change_birthday _birthday self b = Raise (AttributeError "_birthday") /\
  change_address _address self a = Raise (AttributeError "_address").
Proof.
  split; [apply add_phone_raises|]. repeat split.
Qed.

(** ** AddressBook: more on search *)

Lemma search_spec (self : AddressBook) (term : string) (r : record) :
  In r (search self term) <->
  In r (dict_values self) /\ ci_substring term (str_val_record r).
Proof.
  unfold search. rewrite search_loop_filter. cbn [app].
  rewrite filter_In. unfold search_test. rewrite contains_lower_spec. reflexivity.
Qed.

Lemma char_lower_idempotent (c : ascii) : char_lower (char_lower c) = char_lower c.
Proof. destruct c as [[] [] [] [] [] [] [] []]; reflexivity. Qed.

Lemma lower_idempotent (s : string) : lower (lower s) = lower s.
Proof.
  unfold lower. induction s as [|c s IH]; cbn [str_map]; [reflexivity|].
  rewrite char_lower_idempotent, IH. reflexivity.
Qed.

Lemma contains_empty (s : string) : contains "" s = true.
Proof. destruct s; reflexivity. Qed.

Lemma filter_all_true {A : Type} (f : A -> bool) (l : list A) :
  (forall x, f x = true) -> filter f l = l.
Proof.
  intros H. induction l as [|x l IH]; cbn [filter]; [reflexivity|].
  rewrite H, IH. reflexivity.
Qed.

(** X12: an absent email, birthday or address is searched as the text
    None, so a term that is the word none in any letter case finds
    every record of the book that lacks one of the three. *)
Theorem X12_search_none_finds_absent_fields (self : AddressBook) (term : string) (r : record) :
  lower term = "none" ->
  In r (dict_values self) ->
  email r = None \/ birthday r = None \/ address r = None ->
  In r (search self term).
Proof.
  intros Hterm Hin Habsent. apply search_spec. split; [exact Hin|].
  unfold ci_substring, str_val_record. rewrite Hterm.
  destruct Habsent as [H | [H | H]]; rewrite H; cbn [format_opt].
  - exists (Field_str (name r) ++ join " " (map Field_str (phones r))), "None",
           (format_opt (birthday r) ++ format_opt (address r)).
    split; [|reflexivity]. rewrite !str_app_assoc. reflexivity.
  - exists (Field_str (name r) ++ join " " (map Field_str (phones r)) ++ format_opt (email r)),
           "None", (format_opt (address r)).
    split; [|reflexivity]. rewrite !str_app_assoc. reflexivity.
  - exists (Field_str (name r) ++ join " " (map Field_str (phones r)) ++ format_opt (email r)
            ++ format_opt (birthday r)), "None", "".
    split; [|reflexivity]. rewrite !str_app_assoc. reflexivity.
Qed.

Lemma X12_search_none_finds_absent_fields_witness :
  In boris_no_birthday (search [("Anna", anna); ("Boris", boris_no_birthday)] "NONE").
Proof.
  apply (X12_search_none_finds_absent_fields
           [("Anna", anna); ("Boris", boris_no_birthday)] "NONE" boris_no_birthday).
  - reflexivity.
  - right. left. reflexivity.
  - left. reflexivity.
Defined.

(** X13: the empty term finds every record, in the order of the book;
    a term and its lowering find the same records; and whatever the
    term, the records found are records of the book. *)
Theorem X13_search_term_cases (self : AddressBook) (term : string) :
  search self "" = dict_values self /\
  search self (lower term) = search self term /\
  incl (search self term) (dict_values self).
Proof.
  unfold search. rewrite !search_loop_filter. cbn [app]. split; [|split].
  - apply filter_all_true. intros r. unfold search_test. apply contains_empty.
  - unfold search_test. rewrite lower_idempotent. reflexivity.
  - intros r Hr. apply filter_In in Hr. apply Hr.
Qed.

(** ** The calendar *)

Lemma date_new_ok (y m d : Z) (x : date) :
  date_new y m d = Ok x ->
  x = mkDate y m d /\ MINYEAR <= y <= MAXYEAR /\ 1 <= m <= 12 /\ 1 <= d <= days_in_month y m.
Proof.
  unfold date_new.
  destruct (Z.leb_spec MINYEAR y); cbn [andb negb]; [|discriminate].
  destruct (Z.leb_spec y MAXYEAR); cbn [andb negb]; [|discriminate].
  destruct (Z.leb_spec 1 m); cbn [andb negb]; [|discriminate].
  destruct (Z.leb_spec m 12); cbn [andb negb]; [|discriminate].
  destruct (Z.leb_spec 1 d); cbn [andb negb]; [|discriminate].
  destruct (Z.leb_spec d (days_in_month y m)); cbn [andb negb]; [|discriminate].
  intros Hx. injection Hx as Hx. subst x. repeat split; assumption.
Qed.

Lemma date_new_raises (y m d : Z) (e : exn) :
  date_new y m d = Raise e -> e = ValueError.
Proof.
  unfold date_new.
  destruct (negb ((MINYEAR <=? y) && (y <=? MAXYEAR))); [congruence|].
  destruct (negb ((1 <=? m) && (m <=? 12))); [congruence|].
  destruct (negb ((1 <=? d) && (d <=? days_in_month y m))); [congruence | discriminate].
Qed.

Lemma fromisoformat_raises (s : string) (e : exn) :
  fromisoformat s = Raise e -> e = ValueError.
Proof.
  unfold fromisoformat.
  match goal with |- (if ?c then _ else _) = _ -> _ => destruct c end;
    [apply date_new_raises | congruence].
Qed.

Lemma fromisoformat_valid (s : string) (d : date) :
  fromisoformat s = Ok d -> valid_date d.
Proof.
  unfold fromisoformat, valid_date.
  match goal with |- (if ?c then _ else _) = _ -> _ => destruct c end; [|discriminate].
  intros H. destruct (date_new_ok _ _ _ _ H) as [E _]. rewrite E in H |- *. exact H.
Qed.

Lemma month_cases (m : Z) :
  1 <= m <= 12 ->
  m = 1 \/ m = 2 \/ m = 3 \/ m = 4 \/ m = 5 \/ m = 6 \/
  m = 7 \/ m = 8 \/ m = 9 \/ m = 10 \/ m = 11 \/ m = 12.
Proof. lia. Qed.

Ltac each_month m H :=
  destruct (month_cases m H) as
    [?|[?|[?|[?|[?|[?|[?|[?|[?|[?|[?|?]]]]]]]]]]]; subst m.

Ltac calc_days_before_month :=
  repeat match goal with
         | |- context [DAYS_BEFORE_MONTH ?k] =>
             let v := eval vm_compute in (DAYS_BEFORE_MONTH k) in
             change (DAYS_BEFORE_MONTH k) with v
         end.

(** The day of the year lies between 1 and the length of the year. *)
Lemma day_of_year_bounds (y m d : Z) :
  1 <= m <= 12 -> 1 <= d <= days_in_month y m ->
  1 <= days_before_month y m + d <= (if is_leap y then 366 else 365).
Proof.
  intros Hm. each_month m Hm;
    unfold days_before_month, days_in_month; calc_days_before_month; cbn -[Z.add];
    destruct (is_leap y); lia.
Qed.

(** Within a year, a later (month, day) has a later day of the year. *)
Lemma day_of_year_increasing (y m1 d1 m2 d2 : Z) :
  1 <= m1 <= 12 -> 1 <= d1 <= days_in_month y m1 ->
  1 <= m2 <= 12 -> 1 <= d2 <= days_in_month y m2 ->
  m1 < m2 \/ (m1 = m2 /\ d1 < d2) ->
  days_before_month y m1 + d1 < days_before_month y m2 + d2.
Proof.
  intros Hm1 Hd1 Hm2 Hd2 Hlt. destruct Hlt as [Hlt | [Heq Hlt]]; [|subst; lia].
  revert Hd1 Hd2 Hlt.
  each_month m1 Hm1; each_month m2 Hm2; try lia;
    unfold days_before_month, days_in_month; calc_days_before_month; cbn -[Z.add];
    destruct (is_leap y); lia.
Qed.

Lemma year_length (y : Z) :
  days_before_year (y + 1) - days_before_year y = (if is_leap y then 366 else 365).
Proof.
  unfold days_before_year, is_leap. replace (y + 1 - 1) with y by lia.
  destruct (Z.eqb_spec (y mod 4) 0); destruct (Z.eqb_spec (y mod 100) 0);
    destruct (Z.eqb_spec (y mod 400) 0); cbn [negb andb orb];
    Z.to_euclidean_division_equations; lia.
Qed.

Lemma leap_not_consecutive (y : Z) : is_leap y = true -> is_leap (y + 1) = false.
Proof.
  unfold is_leap. destruct (Z.eqb_spec (y mod 4) 0) as [E|]; [|discriminate].
  intros _. destruct (Z.eqb_spec ((y + 1) mod 4) 0) as [E'|]; [|reflexivity].
  exfalso. Z.to_euclidean_division_equations. lia.
Qed.

(** The same (month, day) one year later is 365 or 366 days later. *)
Lemma next_year_same_day (y m d : Z) :
  1 <= m <= 12 ->
  365 <= ymd2ord (y + 1) m d - ymd2ord y m d <= 366.
Proof.
  intros Hm. unfold ymd2ord.
  pose proof (year_length y) as Hlen. pose proof (leap_not_consecutive y) as Hcons.
  unfold days_before_month.
  destruct (is_leap y); destruct (is_leap (y + 1));
    try (specialize (Hcons eq_refl); discriminate Hcons);
    destruct (2 <? m); cbn [andb]; lia.
Qed.

Lemma date_ltb_same_year (a b : date) :
  year a = year b ->
  date_ltb a b = true <->
  month a < month b \/ (month a = month b /\ day a < day b).
Proof.
  intros Hy. unfold date_ltb. rewrite Hy, Z.ltb_irrefl, Z.eqb_refl. cbn [orb andb].
  rewrite orb_true_iff, andb_true_iff, !Z.ltb_lt, Z.eqb_eq. reflexivity.
Qed.

Lemma toordinal_positive (d : date) : valid_date d -> 1 <= toordinal d.
Proof.
  unfold valid_date. intros H. apply date_new_ok in H.
  destruct H as [_ [Hy [Hm Hd]]]. unfold toordinal, ymd2ord.
  pose proof (day_of_year_bounds _ _ _ Hm Hd) as Hb.
  assert (0 <= days_before_year (year d)).
  { unfold days_before_year, MINYEAR in *. Z.to_euclidean_division_equations. lia. }
  lia.
Qed.

(** ** Record: days to the birthday *)

Lemma replace_feb28 (today : date) :
  MINYEAR <= year today <= MAXYEAR ->
  replace_month_day today 2 28 = Ok (mkDate (year today) 2 28).
Proof.
  intros Hy. unfold replace_month_day, date_new.
  destruct (Z.leb_spec MINYEAR (year today)); [|lia].
  destruct (Z.leb_spec (year today) MAXYEAR); [|lia].
  cbn -[Z.add]. unfold days_in_month. cbn -[Z.add].
  destruct (is_leap (year today)); reflexivity.
Qed.

Lemma date_new_other_year (y0 y m dd : Z) :
  1 <= m <= 12 -> 1 <= dd <= days_in_month y0 m ->
  MINYEAR <= y <= MAXYEAR ->
  date_new y m dd
  = if ((m =? 2) && (dd =? 29) && negb (is_leap y))%bool
    then Raise ValueError
    else Ok (mkDate y m dd).
Proof.
  intros Hm Hd Hy. unfold date_new.
  destruct (Z.leb_spec MINYEAR y); [|lia]. destruct (Z.leb_spec y MAXYEAR); [|lia].
  destruct (Z.leb_spec 1 m); [|lia]. destruct (Z.leb_spec m 12); [|lia].
  destruct (Z.leb_spec 1 dd); [|lia]. cbn [andb negb].
  revert Hd. unfold days_in_month.
  destruct (Z.eqb_spec m 2) as [Em|Em]; cbn [andb].
  - destruct (is_leap y0); destruct (is_leap y); cbn [negb andb]; intros Hd;
      destruct (Z.eqb_spec dd 29); destruct (Z.leb_spec dd 29); destruct (Z.leb_spec dd 28);
      cbn [negb andb]; try reflexivity; lia.
  - destruct ((m =? 4) || (m =? 6) || (m =? 9) || (m =? 11))%bool; intros Hd.
    + destruct (Z.leb_spec dd 30); [reflexivity | lia].
    + destruct (Z.leb_spec dd 31); [reflexivity | lia].
Qed.

Lemma date_new_after_last_year (m dd : Z) :
  date_new (MAXYEAR + 1) m dd = Raise ValueError.
Proof. reflexivity. Qed.

Lemma date_ltb_birthday_passed (today d : date) :
  date_ltb (mkDate (year today) (month d) (day d)) today = birthday_passed today d.
Proof.
  unfold date_ltb, birthday_passed. cbn [year month day].
  rewrite Z.ltb_irrefl, Z.eqb_refl. reflexivity.
Qed.

Lemma birthday_passed_spec (today d : date) :
  birthday_passed today d = true <->
  month d < month today \/ (month d = month today /\ day d < day today).
Proof.
  unfold birthday_passed.
  rewrite orb_true_iff, andb_true_iff, !Z.ltb_lt, Z.eqb_eq. reflexivity.
Qed.

(** X14: for a record whose birthday reads as the date [d], seen from
    a day of the calendar: when [d] is 29 February and either the
    current year is a common year or that day has passed, or when the
    birthday has passed and the current year is the last of the
    calendar, [days_to_birthday] raises [AttributeError]; in every
    other case it returns the number of days from today to the
    birthday's month and day in the current year, or in the next year
    when they have passed, a number between 0 and 365 that is 0 exactly
    when the month and day are today's. *)
Theorem X14_days_to_birthday_range
    (_name : arg CName -> result Name) (_phone : arg CPhone -> result Phone)
    (_email : arg CEmail -> result Email) (_birthday : arg CBirthday -> result Birthday)
    (_address : arg CAddress -> result Address)
    (depth : nat) (today : date) (self : record) (b : Birthday) (d : date) :
  valid_date today ->
  birthday self = Some b ->
  get_date b = Ok d ->
  if birthday_unplaceable today d
  then days_to_birthday _name _phone _email _birthday _address (S depth) today self
       = Raise (AttributeError "_name")
  else days_to_birthday _name _phone _email _birthday _address (S depth) today self
       = Ok (ymd2ord (next_birthday_year today d) (month d) (day d) - toordinal today)
       /\ 0 <= ymd2ord (next_birthday_year today d) (month d) (day d) - toordinal today <= 365
       /\ (ymd2ord (next_birthday_year today d) (month d) (day d) - toordinal today = 0
           <-> month d = month today /\ day d = day today).
Proof.
  intros Hvalid Hb Hget. cbn [days_to_birthday]. rewrite Hb, Hget. cbn [bind].
  unfold valid_date in Hvalid. apply date_new_ok in Hvalid.
  destruct Hvalid as [_ [Hy [Hm Hd]]].
  rewrite (replace_feb28 today Hy). cbn [bind].
  rewrite Record_init_raises. cbn [bind].
  pose proof (fromisoformat_valid _ _ Hget) as Hdv. unfold valid_date in Hdv.
  apply date_new_ok in Hdv. destruct Hdv as [_ [_ [Hdm Hdd]]].
  assert (Hthis : replace_year d (year today)
                  = if ((month d =? 2) && (day d =? 29) && negb (is_leap (year today)))%bool
                    then Raise ValueError
                    else Ok (mkDate (year today) (month d) (day d)))
    by (apply (date_new_other_year (year d)); assumption).
  rewrite Hthis. clear Hthis.
  unfold birthday_unplaceable, next_birthday_year, is_feb29.
  destruct ((month d =? 2) && (day d =? 29))%bool eqn:Efeb; cbn [andb].
  - (* 29 February *)
    destruct (is_leap (year today)) eqn:Eleap; cbn [negb orb andb bind try_except_ValueError
                                                       exn_is_ValueError]; [|reflexivity].
    rewrite date_ltb_birthday_passed.
    destruct (birthday_passed today d) eqn:Epassed; cbn [orb andb bind].
    + unfold replace_year. cbn [year month day].
      destruct (Z.eq_dec (year today) MAXYEAR) as [Elast|Elast].
      * rewrite Elast, date_new_after_last_year. reflexivity.
      * rewrite (date_new_other_year (year d) (year today + 1) _ _ Hdm Hdd) by lia.
        rewrite Efeb, (leap_not_consecutive _ Eleap). reflexivity.
    + cbn [try_except_ValueError]. unfold date_sub_days, toordinal. cbn [year month day].
      split; [reflexivity|].
      assert (Hbd : 1 <= day d <= days_in_month (year today) (month d)).
      { apply andb_true_iff in Efeb. destruct Efeb as [E2 E29].
        apply Z.eqb_eq in E2. apply Z.eqb_eq in E29. rewrite E2, E29.
        unfold days_in_month. cbn -[Z.add]. rewrite Eleap. lia. }
      assert (Hnp : ~ (month d < month today \/ (month d = month today /\ day d < day today))).
      { intros H. apply birthday_passed_spec in H. congruence. }
      pose proof (day_of_year_bounds _ _ _ Hm Hd) as Htoday.
      pose proof (day_of_year_bounds _ _ _ Hdm Hbd) as Hbday.
      unfold ymd2ord. revert Htoday Hbday. rewrite Eleap.
      destruct (Z.eq_dec (month d) (month today)) as [Em|Em].
      * rewrite Em in *. intros; (split; [lia|]; split; lia).
      * assert (Hlt : month today < month d) by lia.
        pose proof (day_of_year_increasing _ _ _ _ _ Hm Hd Hdm Hbd (or_introl Hlt)) as Hinc.
        intros; (split; [lia|]; split; lia).
  - (* any other day *)
    cbn [bind]. rewrite date_ltb_birthday_passed.
    assert (Hbd : 1 <= day d <= days_in_month (year today) (month d)).
    { pose proof (date_new_other_year (year d) (year today) _ _ Hdm Hdd Hy) as Hnew.
      rewrite Efeb in Hnew. cbn [andb] in Hnew. apply date_new_ok in Hnew. apply Hnew. }
    pose proof (day_of_year_bounds _ _ _ Hm Hd) as Htoday.
    pose proof (day_of_year_bounds _ _ _ Hdm Hbd) as Hbday.
    destruct (birthday_passed today d) eqn:Epassed; cbn [orb andb bind].
    + apply birthday_passed_spec in Epassed.
      unfold replace_year. cbn [year month day].
      destruct (Z.eqb_spec (year today) MAXYEAR) as [Elast|Elast].
      * rewrite Elast, date_new_after_last_year. reflexivity.
      * rewrite (date_new_other_year (year d) (year today + 1) _ _ Hdm Hdd) by lia.
        rewrite Efeb. cbn [andb bind try_except_ValueError].
        unfold date_sub_days, toordinal. cbn [year month day]. split; [reflexivity|].
        assert (Hnd : 1 <= day d <= days_in_month (year today + 1) (month d)).
        { pose proof (date_new_other_year (year d) (year today + 1) _ _ Hdm Hdd) as Hnew.
          rewrite Efeb in Hnew. cbn [andb] in Hnew.
          assert (Hy1 : MINYEAR <= year today + 1 <= MAXYEAR) by lia.
          specialize (Hnew Hy1). apply date_new_ok in Hnew. apply Hnew. }
        pose proof (next_year_same_day (year today) (month d) (day d) Hdm) as Hnext.
        pose proof (day_of_year_increasing _ _ _ _ _ Hdm Hbd Hm Hd Epassed) as Hinc.
        pose proof (day_of_year_bounds _ _ _ Hdm Hnd) as Hnextday.
        pose proof (year_length (year today)) as Hlen.
        unfold ymd2ord in *. revert Htoday Hbday Hlen Hnextday.
        destruct (is_leap (year today)); destruct (is_leap (year today + 1)); intros.
        all: split; [lia|]; split; [lia|]; intros [E1 E2]; lia.
    + cbn [try_except_ValueError]. unfold date_sub_days, toordinal. cbn [year month day].
      split; [reflexivity|].
      assert (Hnp : ~ (month d < month today \/ (month d = month today /\ day d < day today))).
      { intros H. apply birthday_passed_spec in H. congruence. }
      unfold ymd2ord. revert Htoday Hbday.
      destruct (Z.eq_dec (month d) (month today)) as [Em|Em].
      * rewrite Em in *. destruct (is_leap (year today)); intros; (split; [lia|]; split; lia).
      * assert (Hlt : month today < month d) by lia.
        pose proof (day_of_year_increasing _ _ _ _ _ Hm Hd Hdm Hbd (or_introl Hlt)) as Hinc.
        destruct (is_leap (year today)); intros; (split; [lia|]; split; lia).
Qed.

Lemma X14_days_to_birthday_range_witness :
  days_to_birthday (fun _ => Raise TypeError) (fun _ => Raise TypeError)
    (fun _ => Raise TypeError) (fun _ => Raise TypeError) (fun _ => Raise TypeError)
    1 (mkDate 2023 5 11) clara_may
  = Ok (ymd2ord 2024 5 10 - toordinal (mkDate 2023 5 11))
  /\ 0 <= ymd2ord 2024 5 10 - toordinal (mkDate 2023 5 11) <= 365
  /\ (ymd2ord 2024 5 10 - toordinal (mkDate 2023 5 11) = 0 <-> 5 = 5 /\ 10 = 11).
Proof.
  exact (X14_days_to_birthday_range
           (fun _ => Raise TypeError) (fun _ => Raise TypeError) (fun _ => Raise TypeError)
           (fun _ => Raise TypeError) (fun _ => Raise TypeError)
           0 (mkDate 2023 5 11) clara_may (mkField "2000-05-10") (mkDate 2000 5 10)
           eq_refl eq_refl eq_refl).
Defined.

Example days_to_birthday_examples :
  days_to_birthday (fun _ => Raise TypeError) (fun _ => Raise TypeError)
    (fun _ => Raise TypeError) (fun _ => Raise TypeError) (fun _ => Raise TypeError)
    1 (mkDate 2023 3 1) clara_may = Ok 70 /\
  days_to_birthday (fun _ => Raise TypeError) (fun _ => Raise TypeError)
    (fun _ => Raise TypeError) (fun _ => Raise TypeError) (fun _ => Raise TypeError)
    1 (mkDate 2023 5 10) clara_may = Ok 0 /\
  days_to_birthday (fun _ => Raise TypeError) (fun _ => Raise TypeError)
    (fun _ => Raise TypeError) (fun _ => Raise TypeError) (fun _ => Raise TypeError)
    1 (mkDate 2023 5 11) clara_may = Ok 365.
Proof. repeat split. Qed.

(** ** AddressBook: the birthday window, when it answers *)

Lemma bd_step_projected (current_date last_date : date) (acc : list record) (r : record) :
  match projected_birthday (year current_date) r with
  | Some _ =>
      bd_step current_date last_date acc r
      = Ok (if in_window current_date last_date r then (acc ++ [r])%list else acc)
  | None => raises (bd_step current_date last_date acc r)
  end.
Proof.
  unfold in_window, projected_birthday, bd_step.
  destruct (birthday r) as [b|]; [|eexists; reflexivity].
  destruct (get_date b) as [d|e]; cbn [bind]; [|eexists; reflexivity].
  destruct (replace_year d (year current_date)) as [d'|e]; cbn [bind];
    [|eexists; reflexivity].
  destruct (date_leb current_date d' && date_leb d' last_date)%bool; reflexivity.
Qed.

Lemma bd_loop_answer (current_date last_date : date) (rs : list record) :
  forall acc out,
    bd_loop current_date last_date acc rs = Ok out ->
    out = (acc ++ filter (in_window current_date last_date) rs)%list.
Proof.
  induction rs as [|r rest IH]; intros acc out H; cbn [bd_loop filter] in *.
  - injection H as H. rewrite app_nil_r. symmetry. exact H.
  - pose proof (bd_step_projected current_date last_date acc r) as Hstep.
    destruct (projected_birthday (year current_date) r) as [d|] eqn:Ep.
    + rewrite Hstep in H. cbn [bind] in H. apply IH in H.
      destruct (in_window current_date last_date r); [|exact H].
      rewrite <- app_assoc in H. exact H.
    + destruct Hstep as [e He]. rewrite He in H. discriminate H.
Qed.

Lemma bd_loop_all_projected (current_date last_date : date) (rs : list record) :
  Forall (fun r => projected_birthday (year current_date) r <> None) rs ->
  forall acc, bd_loop current_date last_date acc rs
              = Ok (acc ++ filter (in_window current_date last_date) rs)%list.
Proof.
  induction 1 as [|r rest Hr _ IH]; intros acc; cbn [bd_loop filter].
  - rewrite app_nil_r. reflexivity.
  - pose proof (bd_step_projected current_date last_date acc r) as Hstep.
    destruct (projected_birthday (year current_date) r) as [d|]; [|congruence].
    rewrite Hstep. cbn [bind]. rewrite IH.
    destruct (in_window current_date last_date r); [|reflexivity].
    rewrite <- app_assoc. reflexivity.
Qed.

Lemma bd_loop_not_projected (current_date last_date : date) (rs : list record) :
  Exists (fun r => projected_birthday (year current_date) r = None) rs ->
  forall acc, raises (bd_loop current_date last_date acc rs).
Proof.
  induction 1 as [r rest Hr | r rest _ IH]; intros acc; cbn [bd_loop].
  - pose proof (bd_step_projected current_date last_date acc r) as Hstep.
    rewrite Hr in Hstep. destruct Hstep as [e He]. rewrite He. eexists. reflexivity.
  - destruct (bd_step current_date last_date acc r) as [acc'|e]; cbn [bind].
    + apply IH.
    + eexists. reflexivity.
Qed.

Lemma groups_days_to_bd_not_projected (today : date) (self : AddressBook) (s : string) :
  Exists (fun r => projected_birthday (year today) r = None) (dict_values self) ->
  raises (groups_days_to_bd today self s).
Proof.
  intros Hex. unfold groups_days_to_bd.
  destruct (negb (isdigit s)); [eexists; reflexivity|].
  destruct (int_of_str s) as [days|e]; cbn [bind]; [|eexists; reflexivity].
  destruct (timedelta_days days) as [td|e]; cbn [bind]; [|eexists; reflexivity].
  destruct (date_add today td) as [last|e]; cbn [bind]; [|eexists; reflexivity].
  apply bd_loop_not_projected. exact Hex.
Qed.

Lemma groups_days_to_bd_answer (today : date) (self : AddressBook) (s : string)
    (out : list record) :
  groups_days_to_bd today self s = Ok out ->
  exists days last,
    int_of_str s = Ok days /\ date_add today days = Ok last /\
    out = filter (in_window today last) (dict_values self).
Proof.
  unfold groups_days_to_bd.
  destruct (negb (isdigit s)); [discriminate|].
  destruct (int_of_str s) as [days|e]; cbn [bind]; [|discriminate].
  unfold timedelta_days. destruct (Z.abs days <=? 999999999); cbn [bind]; [|discriminate].
  destruct (date_add today days) as [last|e] eqn:Eadd; cbn [bind]; [|discriminate].
  intros H. apply bd_loop_answer in H. exists days, last.
  split; [reflexivity|]. split; [exact Eadd | exact H].
Qed.

Lemma digit_val_nonneg (c : ascii) : is_decimal c = true -> 0 <= digit_val c.
Proof.
  unfold is_decimal, in_range, digit_val. intros H.
  apply andb_true_iff in H. destruct H as [H _]. apply N.leb_le in H. lia.
Qed.

Lemma digits_val_nonneg (s : string) :
  str_all is_decimal s = true -> forall acc, 0 <= acc -> 0 <= digits_val acc s.
Proof.
  induction s as [|c s IH]; cbn [str_all digits_val]; intros H acc Hacc; [exact Hacc|].
  apply andb_true_iff in H. destruct H as [Hc Hs]. apply IH; [exact Hs|].
  pose proof (digit_val_nonneg c Hc). lia.
Qed.

(** A window of more than [int_max_str_digits] digits is refused by
    [int], whatever its value. *)
Lemma groups_days_to_bd_too_many_digits (today : date) (self : AddressBook) (s : string) :
  int_max_str_digits < Z.of_nat (String.length s) ->
  isdigit s = true ->
  groups_days_to_bd today self s = Raise ValueError.
Proof.
  intros Hlong Hdigit. unfold groups_days_to_bd, int_of_str. rewrite Hdigit. cbn [negb].
  destruct (negb (str_is_empty s) && str_all is_decimal s)%bool; [|reflexivity].
  destruct (Z.ltb_spec int_max_str_digits (Z.of_nat (String.length s))); [reflexivity | lia].
Qed.

(** X15: when the window is a run of decimal digits that [int] reads
    (at most [int_max_str_digits] of them) and that keeps the end date
    inside the calendar, and every record's birthday can be placed in
    the current year, the query returns, in the order of the book,
    exactly the records whose birthday placed in the current year lies
    between today and the end date, both included. *)
Theorem X15_groups_days_to_bd_answer (today last : date) (self : AddressBook)
    (input_days : string) (days : Z) :
  valid_date today ->
  int_of_str input_days = Ok days ->
  date_add today days = Ok last ->
  Forall (fun r => projected_birthday (year today) r <> None) (dict_values self) ->
  groups_days_to_bd today self input_days
  = Ok (filter (in_window today last) (dict_values self)).
Proof.
  intros Hvalid Hint Hadd Hall. unfold groups_days_to_bd. rewrite Hint. cbn [bind].
  unfold int_of_str in Hint.
  destruct (negb (str_is_empty input_days) && str_all is_decimal input_days)%bool eqn:Edec;
    [|discriminate Hint].
  destruct (int_max_str_digits <? Z.of_nat (String.length input_days)); [discriminate Hint|].
  injection Hint as Hdays. apply andb_true_iff in Edec. destruct Edec as [Hne Hdec].
  unfold isdigit. rewrite Hne, (decimal_isdigit _ Hdec). cbn [andb negb].
  assert (Hnonneg : 0 <= days)
    by (subst days; apply digits_val_nonneg; [exact Hdec | lia]).
  assert (Hsmall : days <= MAXORDINAL).
  { pose proof (toordinal_positive today Hvalid) as Hpos.
    unfold date_add in Hadd.
    destruct (Z.ltb_spec 0 (toordinal today + days)); cbn [andb] in Hadd; [|discriminate Hadd].
    destruct (Z.leb_spec (toordinal today + days) MAXORDINAL); [lia | discriminate Hadd]. }
  unfold timedelta_days.
  destruct (Z.leb_spec (Z.abs days) 999999999) as [_|Hbig];
    [|unfold MAXORDINAL in Hsmall; lia].
  cbn [bind]. rewrite Hadd. cbn [bind].
  rewrite bd_loop_all_projected by exact Hall. reflexivity.
Qed.

Lemma X15_groups_days_to_bd_answer_witness :
  groups_days_to_bd (mkDate 2023 3 1) [("Anna", anna); ("Clara", clara_may)] "7"
  = Ok (filter (in_window (mkDate 2023 3 1) (mkDate 2023 3 8))
               (dict_values [("Anna", anna); ("Clara", clara_may)])).
Proof.
  apply (X15_groups_days_to_bd_answer (mkDate 2023 3 1) (mkDate 2023 3 8)
           [("Anna", anna); ("Clara", clara_may)] "7" 7).
  - reflexivity.
  - reflexivity.
  - reflexivity.
  - repeat constructor; discriminate.
Defined.

(** X16: the window never wraps into the next year: every record the
    query returns is a record of the book whose birthday, by month and
    day, is not earlier in the year than today, however long the
    window. *)
Theorem X16_groups_days_to_bd_no_year_wrap (today : date) (self : AddressBook)
    (input_days : string) (out : list record) (r : record) :
  groups_days_to_bd today self input_days = Ok out ->
  In r out ->
  In r (dict_values self) /\
  exists b d,
    birthday r = Some b /\ get_date b = Ok d /\
    ~ (month d < month today \/ (month d = month today /\ day d < day today)).
Proof.
  intros Hok Hin. apply groups_days_to_bd_answer in Hok.
  destruct Hok as [days [last [_ [_ Hout]]]]. subst out.
  apply filter_In in Hin. destruct Hin as [Hin Hwin]. split; [exact Hin|].
  unfold in_window, projected_birthday in Hwin.
  destruct (birthday r) as [b|]; [|discriminate Hwin].
  destruct (get_date b) as [d|e] eqn:Eget; [|discriminate Hwin].
  destruct (replace_year d (year today)) as [d'|e] eqn:Erep; [|discriminate Hwin].
  exists b, d. split; [reflexivity|]. split; [exact Eget|].
  unfold replace_year in Erep. apply date_new_ok in Erep. destruct Erep as [Ed' _]. subst d'.
  apply andb_true_iff in Hwin. destruct Hwin as [Hle _].
  unfold date_leb, date_ltb, date_eqb in Hle. cbn [year month day] in Hle.
  rewrite Z.ltb_irrefl, Z.eqb_refl in Hle. cbn [orb andb] in Hle.
  intros Hearlier.
  apply orb_true_iff in Hle. destruct Hle as [Hle | Hle].
  - apply orb_true_iff in Hle. destruct Hle as [Hle | Hle].
    + apply Z.ltb_lt in Hle. lia.
    + apply andb_true_iff in Hle. destruct Hle as [H1 H2].
      apply Z.eqb_eq in H1. apply Z.ltb_lt in H2. lia.
  - apply andb_true_iff in Hle. destruct Hle as [H1 H2].
    apply Z.eqb_eq in H1. apply Z.eqb_eq in H2. lia.
Qed.

Lemma X16_groups_days_to_bd_no_year_wrap_witness :
  In clara_may (dict_values [("Emma", emma_january); ("Clara", clara_may)]) /\
  exists b d,
    birthday clara_may = Some b /\ get_date b = Ok d /\
    ~ (month d < 3 \/ (month d = 3 /\ day d < 1)).
Proof.
  apply (X16_groups_days_to_bd_no_year_wrap (mkDate 2023 3 1)
           [("Emma", emma_january); ("Clara", clara_may)] "300" [clara_may] clara_may).
  - reflexivity.
  - left. reflexivity.
Defined.

(** In the last days of December a birthday of early January is not
    found, whatever the window. *)
Example groups_days_to_bd_december :
  groups_days_to_bd (mkDate 2023 12 30) [("Emma", emma_january)] "7" = Ok [] /\
  groups_days_to_bd (mkDate 2023 12 30) [("Emma", emma_january)] "365" = Ok [].
Proof. split; reflexivity. Qed.

(** X17: a record whose birthday is 29 February makes the query raise
    in every common year, for every input, whatever else the book
    holds. *)
Theorem X17_groups_days_to_bd_feb29 (today : date) (self : AddressBook)
    (input_days : string) (r : record) (b : Birthday) (d : date) :
  In r (dict_values self) ->
  birthday r = Some b -> get_date b = Ok d ->
  month d = 2 -> day d = 29 ->
  is_leap (year today) = false ->
  raises (groups_days_to_bd today self input_days).
Proof.
  intros Hin Hb Hget Hm Hd Hleap. apply groups_days_to_bd_not_projected.
  apply Exists_exists. exists r. split; [exact Hin|].
  unfold projected_birthday. rewrite Hb, Hget.
  unfold replace_year, date_new. rewrite Hm, Hd.
  destruct (negb ((MINYEAR <=? year today) && (year today <=? MAXYEAR))); [reflexivity|].
  cbn -[Z.add]. unfold days_in_month. cbn -[Z.add]. rewrite Hleap. reflexivity.
Qed.

Lemma X17_groups_days_to_bd_feb29_witness :
  raises (groups_days_to_bd (mkDate 2023 3 1)
            [("Anna", anna); ("Denys", denys_leap_day)] "30").
Proof.
  apply (X17_groups_days_to_bd_feb29 (mkDate 2023 3 1)
           [("Anna", anna); ("Denys", denys_leap_day)] "30" denys_leap_day
           (mkField "2000-02-29") (mkDate 2000 2 29)).
  - right. left. reflexivity.
  - reflexivity.
  - reflexivity.
  - reflexivity.
  - reflexivity.
  - reflexivity.
Defined.

(** ** Birthday: dates written in ISO form *)

Lemma code_digit_char (n : Z) : code (digit_char n) = Z.to_N (48 + n mod 10).
Proof.
  unfold code, digit_char. apply N_ascii_embedding.
  pose proof (Z.mod_pos_bound n 10). lia.
Qed.

Lemma digit_char_decimal (n : Z) : is_decimal (digit_char n) = true.
Proof.
  unfold is_decimal, in_range. rewrite code_digit_char.
  pose proof (Z.mod_pos_bound n 10).
  apply andb_true_iff. split; apply N.leb_le; lia.
Qed.

Lemma digit_val_digit_char (n : Z) : digit_val (digit_char n) = n mod 10.
Proof.
  unfold digit_val. rewrite code_digit_char.
  pose proof (Z.mod_pos_bound n 10). lia.
Qed.

Lemma four_digits (n : Z) :
  0 <= n < 10000 ->
  10 * (10 * (10 * (10 * 0 + (n / 10 / 10 / 10) mod 10) + (n / 10 / 10) mod 10)
        + (n / 10) mod 10) + n mod 10 = n.
Proof. intros H. Z.to_euclidean_division_equations. lia. Qed.

Lemma two_digits (n : Z) :
  0 <= n < 100 -> 10 * (10 * 0 + (n / 10) mod 10) + n mod 10 = n.
Proof. intros H. Z.to_euclidean_division_equations. lia. Qed.

Lemma days_in_month_le_31 (y m : Z) : days_in_month y m <= 31.
Proof.
  unfold days_in_month.
  destruct (m =? 2); [destruct (is_leap y); lia|].
  destruct ((m =? 4) || (m =? 6) || (m =? 9) || (m =? 11))%bool; lia.
Qed.

(** Reading back a date of the calendar written by [isoformat]. *)
Lemma fromisoformat_isoformat (d : date) :
  valid_date d -> fromisoformat (isoformat d) = Ok d.
Proof.
  intros Hv. unfold valid_date in Hv. pose proof (date_new_ok _ _ _ _ Hv) as Hb.
  destruct Hb as [_ [Hy [Hm Hd]]]. pose proof (days_in_month_le_31 (year d) (month d)).
  unfold MINYEAR, MAXYEAR in Hy.
  unfold isoformat, fromisoformat. cbn [zero_pad append String.length Nat.eqb substring].
  cbn [str_all digits_val]. rewrite !digit_char_decimal, !digit_val_digit_char.
  cbn [andb String.eqb Ascii.eqb Bool.eqb].
  rewrite four_digits by lia. rewrite !two_digits by lia. exact Hv.
Qed.

(** X18: every date of the calendar whose year is not after the current
    year, written in ISO form, is accepted as a [Birthday], also when
    it lies later in the current year than today; the field stores the
    text as given and [get_date] returns the date. *)
Theorem X18_birthday_iso_round_trip (today d : date) :
  valid_date d ->
  year d <= year today ->
  Birthday_new today (isoformat d) = Ok (mkField (isoformat d)) /\
  get_date (mkField (isoformat d)) = Ok d.
Proof.
  intros Hv Hy.
  assert (Hparse : fromisoformat (isoformat d) = Ok d) by (apply fromisoformat_isoformat; exact Hv).
  split; [|exact Hparse].
  unfold Birthday_new, Field_new.
  assert (Habs : abstractmethods CBirthday = []) by reflexivity. rewrite Habs.
  unfold Birthday_validate. rewrite Hparse. cbn [bind].
  destruct (Z.ltb_spec (year today) (year d)); [lia | reflexivity].
Qed.

Lemma X18_birthday_iso_round_trip_witness :
  Birthday_new (mkDate 2023 3 1) (isoformat (mkDate 2023 12 31))
    = Ok (mkField (isoformat (mkDate 2023 12 31))) /\
  get_date (mkField (isoformat (mkDate 2023 12 31))) = Ok (mkDate 2023 12 31).
Proof.
  apply (X18_birthday_iso_round_trip (mkDate 2023 3 1) (mkDate 2023 12 31)).
  - reflexivity.
  - simpl. lia.
Defined.

(** ** Search on strings of arbitrary code points *)




(** Without capital sigma and capital I with dot above, lowering
    replaces each code point by one code point, whatever surrounds
    it. *)
Lemma Unicode_lower_from_plain (s : Unicode.ustr) :
  Unicode.plain_case s = true ->
  forall before, Unicode.lower_from before s = map Unicode.to_lower1 s.
Proof.
  induction s as [|c s IH]; intros Hplain before; [reflexivity|].
  cbn [Unicode.plain_case forallb] in Hplain.
  apply andb_true_iff in Hplain. destruct Hplain as [Hc Hs].
  apply andb_true_iff in Hc. destruct Hc as [Hsigma Hdot].
  apply negb_true_iff in Hsigma. apply negb_true_iff in Hdot.
  cbn [Unicode.lower_from map]. unfold Unicode.to_lower_full.
  rewrite Hsigma, Hdot. rewrite (IH Hs). reflexivity.
Qed.

Lemma Unicode_lower_plain (s : Unicode.ustr) :
  Unicode.plain_case s = true -> Unicode.lower s = map Unicode.to_lower1 s.
Proof. intros H. apply Unicode_lower_from_plain. exact H. Qed.

Lemma Unicode_plain_case_app (a b : Unicode.ustr) :
  Unicode.plain_case (a ++ b)%list = (Unicode.plain_case a && Unicode.plain_case b)%bool.
Proof. apply forallb_app. Qed.





(** ** The two models of [search] agree below U+0100 *)

Lemma of_string_app (a b : string) :
  Unicode.of_string (a ++ b) = (Unicode.of_string a ++ Unicode.of_string b)%list.
Proof.
  unfold Unicode.of_string. induction a as [|c a IH]; cbn [append list_ascii_of_string map app];
    [reflexivity | rewrite IH; reflexivity].
Qed.

Lemma code_point_eqb (a b : ascii) :
  N.eqb (N_of_ascii a) (N_of_ascii b) = Ascii.eqb a b.
Proof.
  destruct (Ascii.eqb_spec a b) as [E|E].
  - subst. apply N.eqb_refl.
  - apply N.eqb_neq. intros H. apply E.
    rewrite <- (ascii_N_embedding a), <- (ascii_N_embedding b), H. reflexivity.
Qed.

Lemma starts_with_widen (p s : string) :
  Unicode.starts_with (Unicode.of_string p) (Unicode.of_string s) = starts_with p s.
Proof.
  unfold Unicode.of_string. revert s.
  induction p as [|a p IH]; intros s; [reflexivity|].
  destruct s as [|b s]; [reflexivity|].
  cbn [list_ascii_of_string map Unicode.starts_with starts_with].
  rewrite code_point_eqb, IH. reflexivity.
Qed.

Lemma contains_widen (needle hay : string) :
  Unicode.contains (Unicode.of_string needle) (Unicode.of_string hay)
  = contains needle hay.
Proof.
  induction hay as [|c hay IH].
  - cbn [Unicode.contains contains].
    rewrite <- (starts_with_widen needle ""). reflexivity.
  - change (Unicode.of_string (String c hay))
      with (N_of_ascii c :: Unicode.of_string hay).
    cbn [Unicode.contains contains]. rewrite <- IH.
    change (N_of_ascii c :: Unicode.of_string hay)
      with (Unicode.of_string (String c hay)).
    rewrite starts_with_widen. reflexivity.
Qed.

(** Below U+0100 the tables give the mapping [char_lower] computes, and
    no code point there is a capital sigma or a capital I with dot
    above. *)
Lemma to_lower1_below_U0100 (a : ascii) :
  Unicode.to_lower1 (N_of_ascii a) = N_of_ascii (char_lower a) /\
  Unicode.plain_case [N_of_ascii a] = true.
Proof. destruct a as [[] [] [] [] [] [] [] []]; vm_compute; split; reflexivity. Qed.

Lemma plain_case_of_string (s : string) : Unicode.plain_case (Unicode.of_string s) = true.
Proof.
  induction s as [|c s IH]; [reflexivity|].
  change (Unicode.of_string (String c s)) with ([N_of_ascii c] ++ Unicode.of_string s)%list.
  rewrite Unicode_plain_case_app, IH, (proj2 (to_lower1_below_U0100 c)). reflexivity.
Qed.

Lemma lower_widen (s : string) :
  Unicode.lower (Unicode.of_string s) = Unicode.of_string (lower s).
Proof.
  rewrite Unicode_lower_plain by apply plain_case_of_string.
  unfold Unicode.of_string, lower.
  induction s as [|c s IH]; cbn [list_ascii_of_string map str_map]; [reflexivity|].
  rewrite IH, (proj1 (to_lower1_below_U0100 c)). reflexivity.
Qed.

Lemma join_widen (sep : string) (parts : list string) :
  Unicode.join (Unicode.of_string sep) (map Unicode.of_string parts)
  = Unicode.of_string (join sep parts).
Proof.
  induction parts as [|p rest IH]; [reflexivity|].
  destruct rest as [|q rest']; [reflexivity|].
  change (join sep (p :: q :: rest')) with (p ++ sep ++ join sep (q :: rest')).
  rewrite !of_string_app, <- IH. reflexivity.
Qed.

Lemma format_opt_widen {c : field_class} (x : option (Field c)) :
  Unicode.format_opt (option_map widen_field x) = Unicode.of_string (format_opt x).
Proof. destruct x; reflexivity. Qed.

Lemma str_val_record_widen (r : record) :
  Unicode.str_val_record (widen_record r) = Unicode.of_string (str_val_record r).
Proof.
  unfold Unicode.str_val_record, str_val_record, widen_record.
  cbn [Unicode.name Unicode.phones Unicode.email Unicode.birthday Unicode.address].
  rewrite !of_string_app, !format_opt_widen, <- join_widen, map_map. reflexivity.
Qed.

(** A book whose texts stay below U+0100 is searched alike in the two
    models. *)
Lemma search_widen (self : AddressBook) (term : string) :
  Unicode.search (widen_book self) (Unicode.of_string term)
  = map widen_record (search self term).
Proof.
  unfold Unicode.search, search, Unicode.values, widen_book, dict_values.
  rewrite map_map. cbn [snd]. rewrite <- (map_map snd widen_record).
  change (@nil Unicode.record) with (map widen_record []).
  generalize (@nil record) as acc. generalize (map snd self) as rs. clear self.
  induction rs as [|r rs IH]; intros acc; cbn [map Unicode.search_loop search_loop];
    [reflexivity|].
  rewrite str_val_record_widen, !lower_widen, contains_widen.
  destruct (contains (lower term) (lower (str_val_record r))); [|apply IH].
  rewrite <- (IH (acc ++ [r])%list), map_app. reflexivity.
Qed.
